(** * PsrSigSim, [psrsigsim/ism/ism.py]: the ISM engine

    A shallow embedding of class [ISM] (dispersion, FD shift, scatter
    broadening and the scattering scaling law) and the properties of
    its specification.

    Conventions of the embedding.
    - Python floats and numpy float arrays are idealised as real numbers
      ([R]) and lists of reals: rounding, [inf] and [nan] are outside the
      model.  Scalar float division and power raise the exceptions Python
      raises, the OverflowError of a power beyond the largest float
      included; array (numpy) arithmetic never raises.
    - The methods mutate the signal in place and may raise afterwards, so
      a method is a function from the store to the store it leaves behind
      together with its outcome.
    - A time quantity carries its unit; frequencies are in MHz throughout
      and are represented by their value.  Where the code subtracts two
      quantities, the units are compared as the quantity utility does.
    - Console progress output and wall-clock readings have no effect on
      the store and are left out; the arithmetic that decides whether to
      print is kept, because it can raise. *)

From Stdlib Require Import Reals Lra Lia ZArith.
From stdpp Require Import base list strings.

Open Scope R_scope.

(** ** Exceptions and outcomes *)

Inductive exn : Set :=
| ValueError
| TypeError
| ZeroDivisionError
| IndexError
| AttributeError
| UnboundLocalError
| NotImplementedError
| OverflowError
| UnitConversionError
| ComplexResult.
(* [ComplexResult]: a float power with negative base and fractional
   exponent leaves the reals (a complex number under Python 3, a
   ValueError under Python 2); the model stops there.
   [UnitConversionError] is the error of the quantity utility. *)

Inductive result (A : Type) : Type :=
| Ok (a : A)
| Err (e : exn).
Arguments Ok {A} a.
Arguments Err {A} e.

Definition rbind {A B} (r : result A) (k : A -> result B) : result B :=
  match r with
  | Ok a => k a
  | Err e => Err e
  end.

Notation "'let?' x := r 'in' k" := (rbind r (fun x => k))
  (at level 10, x name, r at level 100, k at level 200).

Definition is_err {A} (r : result A) : bool :=
  match r with Ok _ => false | Err _ => true end.

(** ** Quantities *)

Inductive time_unit : Set := sec | ms | us.

Definition in_seconds (u : time_unit) : R :=
  match u with
  | sec => 1
  | ms => / 1000
  | us => / 1000000
  end.

Record Time : Type := mkTime { tval : R; tunit : time_unit }.

(* [q.to(u)] *)
Definition to (u : time_unit) (q : Time) : Time :=
  mkTime (tval q * in_seconds (tunit q) / in_seconds u) u.

(* A sample rate: so many samples per [per]; MHz is per microsecond. *)
Record Rate : Type := mkRate { rval : R; per : time_unit }.

(* [1/rate] *)
Definition inv_rate (r : Rate) : Time := mkTime (/ rval r) (per r).

(** ** The signal and the engine object *)

Definition Row : Type := list R.

Record Signal : Type := mkSignal {
  sigtype : string;
  _dat_freq : list R;           (* MHz *)
  _data : list Row;
  _samprate : Rate;
  _fcent : R;                   (* MHz *)
  bw : R;                       (* MHz *)
  Nchan : Z;
  _dm : option R;               (* pc/cm^3; None: attribute absent *)
  _dispersed : option bool;     (* None: attribute absent *)
  _FDshifted : option bool      (* None: attribute absent *)
}.

Record MetaData : Type := mkMetaData { mode : string }.
Record SignalIn : Type := mkSignalIn { undispersedsig : list Row }.

(* Attributes an [ISM] object may carry; [__init__] sets none. *)
Record ISM : Type := mkISM {
  MD : option MetaData;
  Signal_in : option SignalIn
}.

Definition ISM__init__ : ISM := mkISM None None.

Record World : Type := mkWorld { w_self : ISM; w_signal : Signal }.

(** ** Store-passing computations *)

Definition M (A : Type) : Type := World -> World * result A.

Definition ret {A} (a : A) : M A := fun w => (w, Ok a).
Definition raise {A} (e : exn) : M A := fun w => (w, Err e).
Definition bind {A B} (m : M A) (k : A -> M B) : M B :=
  fun w => match m w with
           | (w', Ok a) => k a w'
           | (w', Err e) => (w', Err e)
           end.
Definition lift {A} (r : result A) : M A := fun w => (w, r).

Notation "x <- m ;; k" := (bind m (fun x => k))
  (at level 100, m at next level, right associativity).
Notation "m ;;; k" := (bind m (fun _ => k))
  (at level 100, right associativity).

Definition get_signal : M Signal := fun w => (w, Ok (w_signal w)).
Definition get_self : M ISM := fun w => (w, Ok (w_self w)).
Definition modify_signal (f : Signal -> Signal) : M unit :=
  fun w => (mkWorld (w_self w) (f (w_signal w)), Ok tt).
Definition modify_self (f : ISM -> ISM) : M unit :=
  fun w => (mkWorld (f (w_self w)) (w_signal w), Ok tt).

Fixpoint for_each {A} (xs : list A) (body : A -> M unit) : M unit :=
  match xs with
  | [] => ret tt
  | x :: rest => body x ;;; for_each rest body
  end.

(* Field updates of the signal. *)
Definition set_dm (v : R) (s : Signal) : Signal :=
  mkSignal (sigtype s) (_dat_freq s) (_data s) (_samprate s) (_fcent s)
           (bw s) (Nchan s) (Some v) (_dispersed s) (_FDshifted s).
Definition set_dispersed (b : bool) (s : Signal) : Signal :=
  mkSignal (sigtype s) (_dat_freq s) (_data s) (_samprate s) (_fcent s)
           (bw s) (Nchan s) (_dm s) (Some b) (_FDshifted s).
Definition set_FDshifted (b : bool) (s : Signal) : Signal :=
  mkSignal (sigtype s) (_dat_freq s) (_data s) (_samprate s) (_fcent s)
           (bw s) (Nchan s) (_dm s) (_dispersed s) (Some b).
Definition set_data (d : list Row) (s : Signal) : Signal :=
  mkSignal (sigtype s) (_dat_freq s) d (_samprate s) (_fcent s)
           (bw s) (Nchan s) (_dm s) (_dispersed s) (_FDshifted s).

(* [a[i]] on a list: IndexError out of range. *)
Definition index {A} (l : list A) (i : nat) : result A :=
  match l !! i with
  | Some a => Ok a
  | None => Err IndexError
  end.

(* [signal._data[ii,:]] *)
Definition get_row (ii : nat) : M Row :=
  s <- get_signal ;; lift (index (_data s) ii).

(* [signal._data[ii,:] = row] *)
Definition set_row (ii : nat) (row : Row) : M unit :=
  s <- get_signal ;;
  match _data s !! ii with
  | Some _ => modify_signal (set_data (<[ii := row]> (_data s)))
  | None => raise IndexError
  end.

(** ** Scalar float arithmetic *)

(* [a / b] on Python floats. *)
Definition py_div (a b : R) : result R :=
  if Req_dec_T b 0 then Err ZeroDivisionError else Ok (a / b).

Definition is_integer (e : R) : Prop := e = IZR (Int_part e).

Definition is_integer_dec (e : R) : {is_integer e} + {~ is_integer e} :=
  Req_dec_T e (IZR (Int_part e)).

(* The largest finite float, [sys.float_info.max]. *)
Definition float_max : R := (2 - / 2 ^ 52) * 2 ^ 1023.

(* The result of a float power whose value in the reals is [v]:
   OverflowError beyond the largest float. *)
Definition float_result (v : R) : result R :=
  if Rlt_dec float_max (Rabs v) then Err OverflowError else Ok v.

(* [b ** e] on Python floats. *)
Definition py_pow (b e : R) : result R :=
  if Rlt_dec 0 b then float_result (Rpower b e)
  else if Req_dec_T b 0 then
    (if Rlt_dec e 0 then Err ZeroDivisionError
     else if Req_dec_T e 0 then Ok 1 else Ok 0)
  else if is_integer_dec e then float_result (powerRZ b (Int_part e))
  else Err ComplexResult.


(** ** Scaling law for the scattering timescale

    [scale_tau_d(tau_d, nu_i, nu_f, beta)].  The name [exp] is bound in the
    branches [beta < 4] and [beta > 4] only; it is read after the quotient
    [nu_f/nu_i] has been evaluated. *)

Definition tau_d_exp (beta : R) : result (option R) :=
  if Rlt_dec beta 4 then
    let? e := py_div (-2 * beta) (beta - 2) in Ok (Some e)
  else if Rgt_dec beta 4 then
    let? e := py_div (-8) (6 - beta) in Ok (Some e)
  else Ok None.

Definition scale_tau_d (tau_d nu_i nu_f beta : R) : result R :=
  let? exp := tau_d_exp beta in
  let? ratio := py_div nu_f nu_i in
  let? e := match exp with
            | Some e => Ok e
            | None => Err UnboundLocalError
            end in
  let? p := py_pow ratio e in
  Ok (tau_d * p).

(** ** Calling a function: binding arguments to parameters

    Positional arguments fill the parameters from the left; keyword
    arguments then fill by name; parameters still empty take their default.
    Too many positional arguments, an unknown keyword, a parameter filled
    twice and a parameter left empty are each a TypeError.  A method looked
    up on an instance receives the instance as first positional argument. *)

Inductive pyval : Type :=
| PyObject (o : ISM)
| PyFloat (x : R)
| PyArray (xs : list R).

Definition bindings : Type := list (string * pyval).

Fixpoint assoc (k : string) (b : bindings) : option pyval :=
  match b with
  | [] => None
  | (k', v) :: rest => if String.eqb k k' then Some v else assoc k rest
  end.

Fixpoint bind_positional (params : list string) (args : list pyval)
  : result bindings :=
  match args, params with
  | [], _ => Ok []
  | _ :: _, [] => Err TypeError
  | v :: args', p :: params' =>
      let? b := bind_positional params' args' in Ok ((p, v) :: b)
  end.

Fixpoint bind_keywords (params : list string) (kwargs : bindings)
  (b : bindings) : result bindings :=
  match kwargs with
  | [] => Ok b
  | (k, v) :: rest =>
      if negb (existsb (String.eqb k) params) then Err TypeError
      else match assoc k b with
           | Some _ => Err TypeError
           | None => bind_keywords params rest (b ++ [(k, v)])
           end
  end.

Fixpoint bind_defaults (params : list string) (defaults : bindings)
  (b : bindings) : result bindings :=
  match params with
  | [] => Ok b
  | p :: rest =>
      match assoc p b, assoc p defaults with
      | Some _, _ => bind_defaults rest defaults b
      | None, Some d => bind_defaults rest defaults (b ++ [(p, d)])
      | None, None => Err TypeError
      end
  end.

Definition bind_args (params : list string) (defaults : bindings)
  (args : list pyval) (kwargs : bindings) : result bindings :=
  let? b := bind_positional params args in
  let? b := bind_keywords params kwargs b in
  bind_defaults params defaults b.

Definition call_method (self : ISM) (params : list string)
  (defaults : bindings) (args : list pyval) (kwargs : bindings)
  : result bindings :=
  bind_args params defaults (PyObject self :: args) kwargs.

(** ** Complex numbers, for the baseband transfer function *)

Definition Cplx : Type := (R * R)%type.

Definition Cmult (a b : Cplx) : Cplx :=
  (fst a * fst b - snd a * snd b, fst a * snd b + snd a * fst b).

(* [np.exp(1j * theta)] *)
Definition Cexp_i (theta : R) : Cplx := (cos theta, sin theta).

(* [np.fft.rfftfreq(n, d)]: the bins 0 .. n//2, over [d*n]. *)
Definition rfftfreq (n : nat) (d : R) : list R :=
  map (fun k => INR k / (d * INR n)) (seq 0 (S (n / 2))).

(* [a % b] on Python integers. *)
Definition py_mod (a b : Z) : result Z :=
  if (b =? 0)%Z then Err ZeroDivisionError else Ok (a mod b)%Z.

(* Reading an attribute that may be absent. *)
Definition attr {A} (o : option A) : result A :=
  match o with
  | Some a => Ok a
  | None => Err AttributeError
  end.

(* The unit a quantity is tagged with: a time or a frequency in MHz. *)
Inductive unit_tag : Set :=
| unit_time (u : time_unit)
| unit_MHz.

(** Modelled from the spec: the subtraction of the unit-quantity utility,
    which "constructs a scalar or array quantity tagged with a physical
    unit and converts between compatible units".  The array [a] in unit
    [ua] minus the scalar [b] in unit [ub]: [b] is converted to [ua]
    when the two units measure the same thing, and a time and a frequency
    cannot be converted into one another. *)
Definition quantity_sub (a : list R) (ua : unit_tag) (b : R) (ub : unit_tag)
  : result (list R) :=
  match ua, ub with
  | unit_time u1, unit_time u2 =>
      Ok (map (fun x => x - b * in_seconds u2 / in_seconds u1) a)
  | unit_MHz, unit_MHz => Ok (map (fun x => x - b) a)
  | _, _ => Err UnitConversionError
  end.

(** ** The methods of [ISM] *)

Section Engine.

(* The delay-application primitive [shift_t(y, shift, dt)] imported from
   [utils/utils.py]: the row [y] delayed by [shift], for samples [dt]
   apart. *)
Variable shift_t : Row -> R -> R -> Row.

(* The dispersion constant [DM_K] imported from [utils/constants.py]:
   [DM_K * dm / freq^2], with [dm] in pc/cm^3 and [freq] in MHz, is a time
   in unit [DM_K_unit]. *)
Variable DM_K : R.
Variable DM_K_unit : time_unit.

(* The default spectral index [KOLMOGOROV_BETA] imported from
   [utils/constants.py]. *)
Variable KOLMOGOROV_BETA : R.

(* numpy's real-input transform and its inverse. *)
Variable rfft : Row -> list Cplx.
Variable irfft : list Cplx -> Row.

(* The test [(ii+1) % int(signal.Nchan//20) == 0] that guards the
   progress report. *)
Definition progress_check (ii : nat) : M unit :=
  s <- get_signal ;;
  r <- lift (py_mod (Z.of_nat ii + 1) (Nchan s / 20)) ;;
  if (r =? 0)%Z then ret tt (* report progress *) else ret tt.

(* The loop [for ii, freq in enumerate(freq_array)] shared, up to the
   text of the progress report, by [_disperse_filterbank], [FD_shift]
   and [scatter_broaden]. *)
Definition shift_row (time_delays : list R) (shift_dt : R) (ii : nat)
  : M unit :=
  row <- get_row ii ;;
  delay <- lift (index time_delays ii) ;;
  set_row ii (shift_t row delay shift_dt) ;;;
  progress_check ii.

Definition shift_rows (freq_array time_delays : list R) (shift_dt : R)
  : M unit :=
  for_each (seq 0 (length freq_array)) (shift_row time_delays shift_dt).

(* [(DM_K * dm * np.power(freq_array,-2)).to('ms')], entry by entry. *)
Definition dispersion_delay (dm freq : R) : R :=
  tval (to ms (mkTime (DM_K * dm * powerRZ freq (-2)) DM_K_unit)).

Definition dispersion_delays (dm : R) (freq_array : list R) : list R :=
  map (dispersion_delay dm) freq_array.

Definition _disperse_filterbank (dm : R) : M unit :=
  s <- get_signal ;;
  let freq_array := _dat_freq s in
  let time_delays := dispersion_delays dm freq_array in
  let shift_dt := to ms (inv_rate (_samprate s)) in
  shift_rows freq_array time_delays (tval shift_dt).

(* [H = np.exp(1j*2*np.pi*DM_K/((f+f0)*f0**2)*dm*f**2)] *)
Definition chirp (dm f0 f : R) : Cplx :=
  Cexp_i (2 * PI * DM_K / ((f + f0) * f0 ^ 2) * dm * f ^ 2).

(* The axis [u] is tagged with the unit 'us' by [make_quant]; [signal.bw]
   is a quantity in MHz, so [f = u - signal.bw/2.] is a subtraction of a
   frequency from a time.  What follows it is done on the values. *)
Definition _disperse_baseband (dm : R) : M unit :=
  s0 <- get_signal ;;
  for_each (seq 0 (Z.to_nat (Nchan s0))) (fun x =>
    s <- get_signal ;;
    sig <- lift (index (_data s) x) ;;
    let f0 := _fcent s in
    let dt := to us (inv_rate (_samprate s)) in
    let fourier := rfft sig in
    let u := rfftfreq (2 * length fourier - 1) (tval (to sec dt)) in
    f <- lift (quantity_sub u (unit_time us) (bw s / 2) unit_MHz) ;;
    let H := map (chirp dm f0) f in
    let product := zip_with Cmult fourier H in
    let Dispersed := irfft product in
    self <- get_self ;;
    md <- lift (attr (MD self)) ;;
    (if String.eqb (mode md) "explore" then
       sin <- lift (attr (Signal_in self)) ;;
       match undispersedsig sin !! x with
       | Some _ =>
           modify_self (fun o =>
             mkISM (MD o)
                   (Some (mkSignalIn (<[x := sig]> (undispersedsig sin)))))
       | None => raise IndexError
       end
     else ret tt) ;;;
    set_row x Dispersed).

Definition disperse (dm : R) : M unit :=
  modify_signal (set_dm dm) ;;;
  s <- get_signal ;;
  match _dispersed s with
  | Some _ => raise ValueError
  | None =>
      q <- lift (attr (_dm s)) ;;
      (if String.eqb (sigtype s) "FilterBankSignal" then
         _disperse_filterbank q
       else if String.eqb (sigtype s) "BasebandSignal" then
         _disperse_baseband q
       else ret tt) ;;;
      modify_signal (set_dispersed true)
  end.

(* The accumulation
     [for ii in range(len(FD_params)): time_delays += ...]
   with [ii] the index of the head of [FD_params]. *)
Fixpoint FD_accumulate (freq_array : list R) (ref_freq : R)
  (FD_params : list R) (ii : nat) (time_delays : list R) : list R :=
  match FD_params with
  | [] => time_delays
  | p :: rest =>
      FD_accumulate freq_array ref_freq rest (S ii)
        (zip_with Rplus time_delays
           (map (fun freq => -1 * tval (to ms (mkTime p sec))
                             * ln (freq / ref_freq) ^ (ii + 1))
                freq_array))
  end.

Definition FD_delays (freq_array : list R) (FD_params : list R) : list R :=
  FD_accumulate freq_array 1000 FD_params 0
                (replicate (length freq_array) 0).

Definition FD_shift (FD_params : list R) : M unit :=
  s <- get_signal ;;
  let freq_array := _dat_freq s in
  let time_delays := FD_delays freq_array FD_params in
  let shift_dt := to ms (inv_rate (_samprate s)) in
  shift_rows freq_array time_delays (tval shift_dt) ;;;
  modify_signal (set_FDshifted true).

(* The signature [def scale_tau_d(tau_d,nu_i,nu_f,beta=KOLMOGOROV_BETA)],
   written in the body of class [ISM] without a [self] parameter. *)
Definition scale_tau_d_params : list string :=
  ["tau_d"; "nu_i"; "nu_f"; "beta"]%string.
Definition scale_tau_d_defaults : bindings :=
  [("beta"%string, PyFloat KOLMOGOROV_BETA)].

(* The body of [scale_tau_d] on bound arguments: a scalar timescale and
   reference frequency, an array of target frequencies; arithmetic on an
   operand of another kind is a TypeError.  The exponent is scalar
   Python arithmetic and raises as in [scale_tau_d]; the quotient and the
   power are numpy array arithmetic, which does not raise. *)
Definition scale_each (tau_d nu_i beta : R) (nu_f : list R)
  : result (list R) :=
  let? exp := tau_d_exp beta in
  let ratio := map (fun f => f / nu_i) nu_f in
  let? e := match exp with
            | Some e => Ok e
            | None => Err UnboundLocalError
            end in
  Ok (map (fun r => tau_d * Rpower r e) ratio).

Definition scale_tau_d_body (b : bindings) : result (list R) :=
  match assoc "tau_d" b, assoc "nu_i" b, assoc "nu_f" b, assoc "beta" b with
  | Some (PyFloat tau_d), Some (PyFloat nu_i), Some (PyArray nu_f),
    Some (PyFloat beta) => scale_each tau_d nu_i beta nu_f
  | _, _, _, _ => Err TypeError
  end.

(* [pulsar] is not used by the method and is left out. *)
Definition scatter_broaden (tau_d ref_freq beta : R) (convolve : bool)
  : M unit :=
  s <- get_signal ;;
  self <- get_self ;;
  let freq_array := _dat_freq s in
  let tau_d := to ms (mkTime tau_d sec) in
  (* self.scale_tau_d(tau_d, ref_freq , freq_array, beta=beta) *)
  tau_d_scaled <-
    lift (let? b := call_method self scale_tau_d_params
                      scale_tau_d_defaults
                      [PyFloat (tval tau_d); PyFloat ref_freq;
                       PyArray freq_array]
                      [("beta"%string, PyFloat beta)] in
          scale_tau_d_body b) ;;
  if negb convolve then
    let shift_dt := to ms (inv_rate (_samprate s)) in
    shift_rows freq_array tau_d_scaled (tval shift_dt)
  else raise NotImplementedError.

End Engine.

(** ** The round trip of the scaling law *)


(** ** Well-formed channelized signals and sample inputs *)

(* One frequency and one row per channel. *)
Definition channelized (s : Signal) : Prop :=
  sigtype s = "FilterBankSignal"%string
  /\ Nchan s = Z.of_nat (length (_dat_freq s))
  /\ length (_data s) = length (_dat_freq s).

(* The row of channel [ii] once delayed. *)
Definition shifted_rows (shift_t : Row -> R -> R -> Row)
  (time_delays : list R) (shift_dt : R) (data : list Row) : list Row :=
  zip_with (fun row delay => shift_t row delay shift_dt) data time_delays.

(* The delays the specification asks of the FD engine: the sum over k of
   [-fdParams[k] * log(freq/refFreq)^(k+1)], in seconds, [k] counting from
   the index of the head of [fdParams]. *)
Fixpoint FD_total_seconds (ref_freq freq : R) (fdParams : list R) (k : nat)
  : R :=
  match fdParams with
  | [] => 0
  | p :: rest =>
      - p * ln (freq / ref_freq) ^ (k + 1)
      + FD_total_seconds ref_freq freq rest (S k)
  end.

(* The sample interval in ms, [(1/signal._samprate).to('ms').value]. *)
Definition sample_interval_ms (s : Signal) : R :=
  tval (to ms (inv_rate (_samprate s))).

(* Four channels at 1200..1500 MHz sampled at 1 kHz. *)
Definition four_channels : Signal :=
  mkSignal "FilterBankSignal" [1200; 1300; 1400; 1500]
    [[1; 0; 0; 0]; [0; 1; 0; 0]; [0; 0; 1; 0]; [0; 0; 0; 1]]
    (mkRate 1 ms) 1350 400 4 None None None.

(* The same signal after a dispersion with dm = 10 has been recorded. *)
Definition four_channels_dispersed : Signal :=
  set_dispersed true (set_dm 10 four_channels).

(* One baseband segment. *)
Definition one_baseband : Signal :=
  mkSignal "BasebandSignal" [1400] [[1; 2; 3; 4]]
    (mkRate 800 us) 1400 400 1 None None None.

(* A signal of neither kind. *)
Definition plain_signal : Signal :=
  mkSignal "Signal" [1400] [[1; 2; 3; 4]]
    (mkRate 1 ms) 1400 400 1 None None None.

(** Modelled from the spec: what the delay-application primitive
    [shift_t] of [utils/utils.py] returns for a delay of 0.  The
    specification asks it to be "stable for delay ~ 0" and has a
    dispersion with "delay = 0 for all channels" leave the data unchanged:
    a delay of 0 returns the row. *)
Definition stable_at_zero (shift_t : Row -> R -> R -> Row) : Prop :=
  forall y dt, shift_t y 0 dt = y.

(* A delay primitive that moves whole samples around the row. *)
Definition rotate_shift (y : Row) (shift dt : R) : Row :=
  rotate (Z.to_nat (Int_part (shift / dt))) y.

(* Sample values for the parameters of the engine. *)
Definition sample_DM_K : R := 4149.
Definition no_rfft (y : Row) : list Cplx := [].
Definition no_irfft (z : list Cplx) : Row := [].

(** ** The scaling laws of the scintillation bandwidth and timescale

    [scale_dnu_d(dnu_d, nu_i, nu_f, beta)] and
    [scale_dt_d(dt_d, nu_i, nu_f, beta)], written as [scale_tau_d] is:
    [exp] is bound in the branches [beta < 4] and [beta > 4] only. *)

Definition dnu_d_exp (beta : R) : result (option R) :=
  if Rlt_dec beta 4 then
    let? e := py_div (2 * beta) (beta - 2) in Ok (Some e)
  else if Rgt_dec beta 4 then
    let? e := py_div 8 (6 - beta) in Ok (Some e)
  else Ok None.

Definition scale_dnu_d (dnu_d nu_i nu_f beta : R) : result R :=
  let? exp := dnu_d_exp beta in
  let? ratio := py_div nu_f nu_i in
  let? e := match exp with
            | Some e => Ok e
            | None => Err UnboundLocalError
            end in
  let? p := py_pow ratio e in
  Ok (dnu_d * p).

Definition dt_d_exp (beta : R) : result (option R) :=
  if Rlt_dec beta 4 then
    let? e := py_div 2 (beta - 2) in Ok (Some e)
  else if Rgt_dec beta 4 then
    let? e := py_div (beta - 2) (6 - beta) in Ok (Some e)
  else Ok None.

Definition scale_dt_d (dt_d nu_i nu_f beta : R) : result R :=
  let? exp := dt_d_exp beta in
  let? ratio := py_div nu_f nu_i in
  let? e := match exp with
            | Some e => Ok e
            | None => Err UnboundLocalError
            end in
  let? p := py_pow ratio e in
  Ok (dt_d * p).

(* The common shape of the three laws, given the outcome of the branch
   that binds [exp]. *)
Definition power_law (exp : result (option R)) (q nu_i nu_f : R)
  : result R :=
  let? exp := exp in
  let? ratio := py_div nu_f nu_i in
  let? e := match exp with
            | Some e => Ok e
            | None => Err UnboundLocalError
            end in
  let? p := py_pow ratio e in
  Ok (q * p).

(* A spectral index at which every branch of the three laws is defined. *)
Definition regular_beta (beta : R) : Prop :=
  beta <> 2 /\ beta <> 4 /\ beta <> 6.


(** ** What a method may change of a signal *)

(* [s'] is [s] with other rows, as many as before. *)
Definition frame (s s' : Signal) : Prop :=
  s' = set_data (_data s') s /\ length (_data s') = length (_data s).

(* The squared modulus of a complex number. *)
Definition Cnorm2 (z : Cplx) : R := fst z * fst z + snd z * snd z.

(* Twenty channels from 1200 MHz, 1 MHz apart, sampled at 1 kHz. *)
Definition twenty_channels : Signal :=
  mkSignal "FilterBankSignal"
    (map (fun k : nat => 1200 + INR k) (seq 0 20))
    (replicate 20 [1; 0; 0; 0])
    (mkRate 1 ms) 1210 20 20 None None None.

(* An engine that has been given a metadata attribute. *)
Definition engine_with_MD : ISM :=
  mkISM (Some (mkMetaData "simulate")) None.

(* Same engine object, same signal up to the contents of the rows. *)
Definition keeps_frame (w w' : World) : Prop :=
  w_self w' = w_self w /\ frame (w_signal w) (w_signal w').

(* Same signal up to the contents of the rows. *)
Definition signal_frame (w w' : World) : Prop :=
  frame (w_signal w) (w_signal w').

(* A computation that relates every store to the store it leaves. *)
Definition keeps {A} (Rel : World -> World -> Prop) (m : M A) : Prop :=
  forall w, Rel w (fst (m w)).

(* Every channel frequency is positive. *)
Definition positive_frequencies (s : Signal) : Prop :=
  Forall (fun f => 0 < f) (_dat_freq s).

(** * Properties *)

Lemma bind_ok {A B} (m : M A) (k : A -> M B) w w' a :
  m w = (w', Ok a) -> bind m k w = k a w'.
Proof. intros H. unfold bind. now rewrite H. Qed.

Lemma bind_err {A B} (m : M A) (k : A -> M B) w w' e :
  m w = (w', Err e) -> bind m k w = (w', Err e).
Proof. intros H. unfold bind. now rewrite H. Qed.

Lemma set_data_same s : set_data (_data s) s = s.
Proof. now destruct s. Qed.

Lemma to_ms_of_sec p : tval (to ms (mkTime p sec)) = 1000 * p.
Proof. unfold to. simpl. field. Qed.

Lemma powerRZ_minus_2 f : powerRZ f (-2) = / (f * f).
Proof. simpl. now rewrite Rmult_1_r. Qed.

(** *** The scaling law *)

Lemma py_div_ok a b : b <> 0 -> py_div a b = Ok (a / b).
Proof. intros H. unfold py_div. now destruct (Req_dec_T b 0). Qed.

Lemma py_div_zero a : py_div a 0 = Err ZeroDivisionError.
Proof. unfold py_div. now destruct (Req_dec_T 0 0). Qed.

Lemma Rinv_le_1 x : 1 <= x -> / x <= 1.
Proof.
  intros H. apply Rle_trans with (/ 1); [|rewrite Rinv_1; lra].
  apply Rinv_le_contravar; lra.
Qed.

(* The largest float is at least 2^1023 and less than 2^1024. *)
Lemma float_max_bounds : 2 ^ 1023 <= float_max < 2 ^ 1024.
Proof.
  unfold float_max.
  assert (H1 : 0 < 2 ^ 1023) by (apply pow_lt; lra).
  assert (H2 : 0 < / 2 ^ 52 <= 1).
  { split; [apply Rinv_0_lt_compat, pow_lt; lra|].
    apply Rinv_le_1, pow_R1_Rle. lra. }
  change (2 ^ 1024) with (2 * 2 ^ 1023). split; nra.
Qed.

Lemma float_max_ge_pow k : (k <= 1023)%nat -> 2 ^ k <= float_max.
Proof.
  intros Hk. apply Rle_trans with (2 ^ 1023); [|apply float_max_bounds].
  apply Rle_pow; [lra | exact Hk].
Qed.

Lemma float_max_ge_1 : 1 <= float_max.
Proof. apply (float_max_ge_pow 0). lia. Qed.

Lemma float_result_ok v : Rabs v <= float_max -> float_result v = Ok v.
Proof.
  intros H. unfold float_result.
  destruct (Rlt_dec float_max (Rabs v)); [lra | reflexivity].
Qed.


Lemma Rpower_pos b e : 0 < Rpower b e.
Proof. unfold Rpower. apply exp_pos. Qed.

Lemma py_pow_positive_base b e :
  0 < b -> py_pow b e = float_result (Rpower b e).
Proof. intros H. unfold py_pow. now destruct (Rlt_dec 0 b). Qed.






Lemma tau_d_exp_defined beta :
  beta <> 2 -> beta <> 4 -> beta <> 6 ->
  exists e, tau_d_exp beta = Ok (Some e).
Proof.
  intros H2 H4 H6. unfold tau_d_exp.
  destruct (Rlt_dec beta 4).
  - rewrite py_div_ok by lra. simpl. eauto.
  - destruct (Rgt_dec beta 4); [|lra].
    rewrite py_div_ok by lra. simpl. eauto.
Qed.

Lemma Rpower_inverse_bases a e :
  0 < a -> Rpower a e * Rpower (/ a) e = 1.
Proof.
  intros Ha. unfold Rpower. rewrite <- exp_plus, ln_Rinv by assumption.
  replace (e * ln a + e * - ln a) with 0 by ring. apply exp_0.
Qed.

Lemma same_sign_ratio f1 f2 : 0 < f1 * f2 -> f1 <> 0 /\ 0 < f2 / f1.
Proof.
  intros Hf. assert (H1 : f1 <> 0) by (intros ->; lra). split; [exact H1|].
  replace (f2 / f1) with (f1 * f2 * Rsqr (/ f1))
    by (unfold Rsqr; field; exact H1).
  apply Rmult_lt_0_compat; [exact Hf|].
  apply Rsqr_pos_lt, Rinv_neq_0_compat, H1.
Qed.







Lemma scale_tau_d_beta_4 x f1 f2 :
  f1 <> 0 -> scale_tau_d x f1 f2 4 = Err UnboundLocalError.
Proof.
  intros H1. unfold scale_tau_d, tau_d_exp.
  destruct (Rlt_dec 4 4); [lra|]. destruct (Rgt_dec 4 4); [lra|].
  simpl. now rewrite py_div_ok.
Qed.

Lemma tau_d_exp_outcome beta :
  tau_d_exp beta = Err ZeroDivisionError \/ exists o, tau_d_exp beta = Ok o.
Proof.
  unfold tau_d_exp, py_div.
  destruct (Rlt_dec beta 4).
  - destruct (Req_dec_T (beta - 2) 0); simpl; eauto.
  - destruct (Rgt_dec beta 4); [|eauto].
    destruct (Req_dec_T (6 - beta) 0); simpl; eauto.
Qed.


Lemma kolmogorov_exp : tau_d_exp (11 / 3) = Ok (Some (- 22 / 5)).
Proof.
  unfold tau_d_exp. destruct (Rlt_dec (11 / 3) 4); [|lra].
  rewrite py_div_ok by lra. simpl. do 2 f_equal. field.
Qed.



(** *** The FD delay spectrum *)

Lemma zip_plus_const_0 (acc : list R) (freq : list R) (h : R -> R) :
  (forall f, h f = 0) -> length acc = length freq ->
  zip_with Rplus acc (map h freq) = acc.
Proof.
  intros Hh. revert freq.
  induction acc as [|a acc IH]; intros [|f freq] Hlen; simpl in *;
    try reflexivity; try discriminate.
  rewrite Hh, IH by lia. f_equal. ring.
Qed.

Lemma zip_plus_map (g h : R -> R) (acc freq : list R) :
  zip_with Rplus (zip_with Rplus acc (map g freq)) (map h freq)
  = zip_with Rplus acc (map (fun f => g f + h f) freq).
Proof.
  revert freq. induction acc as [|a acc IH]; intros [|f freq]; simpl;
    try reflexivity.
  rewrite IH. f_equal. ring.
Qed.

Lemma FD_accumulate_total freq_array ref_freq FD_params :
  forall ii time_delays,
    length time_delays = length freq_array ->
    FD_accumulate freq_array ref_freq FD_params ii time_delays
    = zip_with Rplus time_delays
        (map (fun freq =>
                1000 * FD_total_seconds ref_freq freq FD_params ii)
             freq_array).
Proof.
  induction FD_params as [|p rest IH]; intros ii acc Hlen; simpl.
  - symmetry. apply zip_plus_const_0; [intros; ring | exact Hlen].
  - rewrite IH by (rewrite length_zip_with, length_map; lia).
    rewrite zip_plus_map. f_equal. apply map_ext. intros f.
    unfold to. simpl. field.
Qed.

(* The accumulated delays are the sums the specification asks for, in
   ms. *)
Lemma FD_delays_total freq_array FD_params :
  FD_delays freq_array FD_params
  = map (fun freq => 1000 * FD_total_seconds 1000 freq FD_params 0)
        freq_array.
Proof.
  unfold FD_delays.
  rewrite FD_accumulate_total by apply length_replicate.
  generalize (fun freq => 1000 * FD_total_seconds 1000 freq FD_params 0).
  intros h. induction freq_array as [|f freq IH]; simpl; [reflexivity|].
  rewrite IH. f_equal. ring.
Qed.

Lemma channelized_four_channels : channelized four_channels.
Proof. repeat split. Qed.

Lemma Int_part_0 : Int_part 0 = 0%Z.
Proof.
  unfold Int_part. rewrite <- (tech_up 0 1); [reflexivity| |]; simpl; lra.
Qed.

Lemma rotate_shift_zero : stable_at_zero rotate_shift.
Proof.
  intros y dt. unfold rotate_shift, Rdiv. rewrite Rmult_0_l, Int_part_0. simpl.
  unfold rotate. rewrite Nat.Div0.mod_0_l. simpl. apply app_nil_r.
Qed.

Section Properties.

Variable shift_t : Row -> R -> R -> Row.
Variable DM_K : R.
Variable DM_K_unit : time_unit.
Variable KOLMOGOROV_BETA : R.
Variable rfft : Row -> list Cplx.
Variable irfft : list Cplx -> Row.

Local Abbreviation disperse := (disperse shift_t DM_K DM_K_unit rfft irfft).
Local Abbreviation _disperse_filterbank :=
  (_disperse_filterbank shift_t DM_K DM_K_unit).
Local Abbreviation _disperse_baseband := (_disperse_baseband DM_K rfft irfft).
Local Abbreviation dispersion_delay := (dispersion_delay DM_K DM_K_unit).
Local Abbreviation dispersion_delays := (dispersion_delays DM_K DM_K_unit).
Local Abbreviation FD_shift := (FD_shift shift_t).
Local Abbreviation scatter_broaden := (scatter_broaden shift_t KOLMOGOROV_BETA).
Local Abbreviation shift_row := (shift_row shift_t).
Local Abbreviation shift_rows := (shift_rows shift_t).

(** *** The call of [scale_tau_d] through [self] *)

(* The instance takes the place of [tau_d] and the frequency array that
   of [beta]. *)
Lemma scale_tau_d_positional self tau_d ref_freq freq_array :
  bind_positional scale_tau_d_params
    [PyObject self; PyFloat tau_d; PyFloat ref_freq; PyArray freq_array]
  = Ok [("tau_d"%string, PyObject self); ("nu_i"%string, PyFloat tau_d);
        ("nu_f"%string, PyFloat ref_freq);
        ("beta"%string, PyArray freq_array)].
Proof. reflexivity. Qed.

(* Had the signature a leading [self], the same call would bind. *)
Lemma scale_tau_d_call_with_self self tau_d ref_freq freq_array beta :
  call_method self ("self"%string :: scale_tau_d_params)
    (scale_tau_d_defaults KOLMOGOROV_BETA)
    [PyFloat tau_d; PyFloat ref_freq; PyArray freq_array]
    [("beta"%string, PyFloat beta)]
  = Ok [("self"%string, PyObject self); ("tau_d"%string, PyFloat tau_d);
        ("nu_i"%string, PyFloat ref_freq);
        ("nu_f"%string, PyArray freq_array);
        ("beta"%string, PyFloat beta)].
Proof. reflexivity. Qed.

Lemma scale_tau_d_call_fails self tau_d ref_freq freq_array beta :
  call_method self scale_tau_d_params
    (scale_tau_d_defaults KOLMOGOROV_BETA)
    [PyFloat tau_d; PyFloat ref_freq; PyArray freq_array]
    [("beta"%string, PyFloat beta)] = Err TypeError.
Proof. reflexivity. Qed.

Lemma scatter_broaden_fails tau_d ref_freq beta convolve w :
  scatter_broaden tau_d ref_freq beta convolve w = (w, Err TypeError).
Proof. reflexivity. Qed.

(** *** The guard of [disperse] *)

Lemma disperse_guard dm w b :
  _dispersed (w_signal w) = Some b ->
  disperse dm w
  = (mkWorld (w_self w) (set_dm dm (w_signal w)), Err ValueError).
Proof.
  intros Hd. unfold disperse, bind, modify_signal, get_signal, raise.
  simpl. now rewrite Hd.
Qed.

(** *** One iteration of the channel loop *)

Lemma shift_row_step delays dt ii self s row d :
  _data s !! ii = Some row ->
  delays !! ii = Some d ->
  shift_row delays dt ii (mkWorld self s)
  = (mkWorld self (set_data (<[ii := shift_t row d dt]> (_data s)) s),
     if (Nchan s / 20 =? 0)%Z then Err ZeroDivisionError else Ok tt).
Proof.
  intros Hrow Hd.
  unfold shift_row, get_row, set_row, progress_check, index, py_mod,
    bind, lift, get_signal, modify_signal, raise, ret.
  simpl. rewrite Hrow. simpl. rewrite Hd. simpl.
  destruct (Nchan s / 20 =? 0)%Z; [reflexivity|].
  now destruct (_ =? 0)%Z.
Qed.

(* A loop whose first iteration raises stops there. *)
Lemma for_each_first_raises {A} (x : A) xs (body : A -> M unit) w w' e :
  body x w = (w', Err e) -> for_each (x :: xs) body w = (w', Err e).
Proof. intros H. simpl. now apply bind_err. Qed.

(* With a non-zero [Nchan//20] the loop runs through every channel. *)
Lemma shift_loop_completes delays dt self s0 n :
  (Nchan s0 / 20 <> 0)%Z ->
  length delays = length (_data s0) ->
  forall i, (i + n = length (_data s0))%nat ->
  for_each (seq i n) (shift_row delays dt)
    (mkWorld self
       (set_data (take i (shifted_rows shift_t delays dt (_data s0))
                  ++ drop i (_data s0)) s0))
  = (mkWorld self
       (set_data (shifted_rows shift_t delays dt (_data s0)) s0), Ok tt).
Proof.
  intros HN Hlen. induction n as [|n IH]; intros i Hi.
  - simpl. unfold ret. rewrite Nat.add_0_r in Hi. subst i.
    rewrite drop_all, app_nil_r.
    rewrite take_ge; [reflexivity|].
    unfold shifted_rows. rewrite length_zip_with. lia.
  - simpl.
    destruct (lookup_lt_is_Some_2 (_data s0) i) as [row Hrow]; [lia|].
    destruct (lookup_lt_is_Some_2 delays i) as [d Hd]; [lia|].
    assert (Hsh : shifted_rows shift_t delays dt (_data s0) !! i
                  = Some (shift_t row d dt)).
    { unfold shifted_rows. rewrite lookup_zip_with, Hrow. simpl.
      now rewrite Hd. }
    assert (Hlt : length (take i (shifted_rows shift_t delays dt (_data s0)))
                  = i).
    { rewrite length_take. unfold shifted_rows.
      rewrite length_zip_with. lia. }
    assert (Hcur : _data (set_data
              (take i (shifted_rows shift_t delays dt (_data s0))
               ++ drop i (_data s0)) s0) !! i = Some row).
    { simpl. rewrite lookup_app_r; rewrite Hlt; [|lia].
      rewrite Nat.sub_diag, lookup_drop, Nat.add_0_r. exact Hrow. }
    pose proof (shift_row_step delays dt i self _ row d Hcur Hd) as Hstep.
    apply Z.eqb_neq in HN. simpl in Hstep. rewrite HN in Hstep.
    rewrite (bind_ok _ _ _ _ _ Hstep).
    specialize (IH (S i) ltac:(lia)).
    rewrite <- IH. f_equal. f_equal. unfold set_data. simpl. f_equal.
    rewrite (take_S_r _ _ _ Hsh), <- app_assoc. simpl.
    replace i with (length (take i (shifted_rows shift_t delays dt
                                      (_data s0)) ) + 0)%nat at 1
      by (rewrite Hlt; lia).
    rewrite insert_app_r. f_equal.
    rewrite (drop_S _ _ _ Hrow). reflexivity.
Qed.

Lemma shift_rows_completes freq delays dt self s :
  (Nchan s / 20 <> 0)%Z ->
  length delays = length (_data s) ->
  length freq = length (_data s) ->
  shift_rows freq delays dt (mkWorld self s)
  = (mkWorld self (set_data (shifted_rows shift_t delays dt (_data s)) s),
     Ok tt).
Proof.
  intros HN Hd Hf. unfold shift_rows.
  rewrite <- (shift_loop_completes delays dt self s (length freq) HN Hd 0%nat)
    by lia.
  simpl. rewrite drop_0. now rewrite set_data_same.
Qed.

(* With fewer than twenty channels the first iteration raises, after row
   0 has been replaced. *)
Lemma shift_rows_aborts freq delays dt self s row d :
  (Nchan s / 20 = 0)%Z ->
  (0 < length freq)%nat ->
  _data s !! 0%nat = Some row ->
  delays !! 0%nat = Some d ->
  shift_rows freq delays dt (mkWorld self s)
  = (mkWorld self (set_data (<[0%nat := shift_t row d dt]> (_data s)) s),
     Err ZeroDivisionError).
Proof.
  intros HN Hf Hrow Hd. unfold shift_rows.
  destruct (length freq) as [|n]; [lia|]. simpl seq.
  apply for_each_first_raises.
  rewrite (shift_row_step _ _ _ _ _ _ _ Hrow Hd).
  apply Z.eqb_eq in HN. now rewrite HN.
Qed.

(* A loop over zero delays leaves the store as it found it, whatever its
   outcome. *)
Lemma shift_row_zero delays dt ii w :
  stable_at_zero shift_t ->
  Forall (fun d => d = 0) delays ->
  exists r, shift_row delays dt ii w = (w, r).
Proof.
  intros Hz Hall. destruct w as [self s].
  destruct (_data s !! ii) as [row|] eqn:Hrow.
  - destruct (delays !! ii) as [d|] eqn:Hd.
    + rewrite (shift_row_step _ _ _ _ _ _ _ Hrow Hd).
      assert (d = 0) as ->.
      { eapply (proj1 (Forall_lookup _ _) Hall); eauto. }
      rewrite Hz, (list_insert_id _ _ _ Hrow), set_data_same.
      eauto.
    + unfold shift_row, get_row, index, bind, lift, get_signal. simpl.
      rewrite Hrow, Hd. eauto.
  - unfold shift_row, get_row, index, bind, lift, get_signal. simpl.
    rewrite Hrow. eauto.
Qed.

Lemma shift_loop_zero delays dt iis w :
  stable_at_zero shift_t ->
  Forall (fun d => d = 0) delays ->
  exists r, for_each iis (shift_row delays dt) w = (w, r).
Proof.
  intros Hz Hall. induction iis as [|ii iis IH]; simpl.
  - unfold ret. eauto.
  - destruct (shift_row_zero delays dt ii w Hz Hall) as [[[]|e] Hr].
    + rewrite (bind_ok _ _ _ _ _ Hr). exact IH.
    + rewrite (bind_err _ _ _ _ _ Hr). eauto.
Qed.

(** *** The delay spectrum *)

(* The delay is [DM_K * dm / freq^2], a time in [DM_K_unit], expressed in
   ms. *)
Lemma dispersion_delay_formula dm freq :
  dispersion_delay dm freq
  = tval (to ms (mkTime (DM_K * dm / freq ^ 2) DM_K_unit)).
Proof.
  unfold dispersion_delay. rewrite powerRZ_minus_2.
  unfold to, Rdiv. simpl. now rewrite Rmult_1_r.
Qed.

Lemma dispersion_delays_lookup dm freq_array ii :
  dispersion_delays dm freq_array !! ii
  = dispersion_delay dm <$> freq_array !! ii.
Proof. unfold dispersion_delays. apply list_lookup_fmap. Qed.

Lemma in_seconds_pos u : 0 < in_seconds u.
Proof. destruct u; simpl; lra. Qed.

Lemma to_ms_value v u : tval (to ms (mkTime v u)) = v * (1000 * in_seconds u).
Proof. unfold to. simpl. field. Qed.

(* For a positive constant and dm the delay decreases strictly as the
   frequency grows. *)
Lemma dispersion_delay_decreasing dm f1 f2 :
  0 < DM_K -> 0 < dm -> 0 < f1 -> f1 < f2 ->
  dispersion_delay dm f2 < dispersion_delay dm f1.
Proof.
  intros HK Hdm H1 H12. rewrite !dispersion_delay_formula, !to_ms_value.
  pose proof (in_seconds_pos DM_K_unit) as Hu.
  apply Rmult_lt_compat_r; [lra|].
  unfold Rdiv. apply Rmult_lt_compat_l; [nra|].
  apply Rinv_lt_contravar.
  - apply Rmult_lt_0_compat; apply pow_lt; lra.
  - simpl. nra.
Qed.

Lemma dispersion_delay_zero freq : dispersion_delay 0 freq = 0.
Proof. unfold dispersion_delay, to, Rdiv. simpl. ring. Qed.

Lemma dispersion_delays_zero freq_array :
  Forall (fun d => d = 0) (dispersion_delays 0 freq_array).
Proof.
  unfold dispersion_delays. apply Forall_fmap, Forall_forall.
  intros f _. apply dispersion_delay_zero.
Qed.

(** *** [disperse] on a channelized signal *)

Lemma disperse_unfold_filterbank dm self s :
  _dispersed s = None ->
  sigtype s = "FilterBankSignal"%string ->
  disperse dm (mkWorld self s)
  = bind (shift_rows (_dat_freq s)
            (dispersion_delays dm (_dat_freq s)) (sample_interval_ms s))
         (fun _ => modify_signal (set_dispersed true))
         (mkWorld self (set_dm dm s)).
Proof.
  intros Hd Hk.
  unfold disperse, bind at 1 2, modify_signal at 1, get_signal at 1.
  simpl. rewrite Hd. unfold bind at 1, lift. simpl. rewrite Hk. simpl.
  reflexivity.
Qed.

(* Twenty channels or more: every row is delayed and the flag is set. *)
Lemma disperse_filterbank_completes dm self s :
  channelized s -> _dispersed s = None -> (20 <= Nchan s)%Z ->
  disperse dm (mkWorld self s)
  = (mkWorld self
       (set_dispersed true
          (set_data (shifted_rows shift_t (dispersion_delays dm (_dat_freq s))
                       (sample_interval_ms s) (_data s))
             (set_dm dm s))),
     Ok tt).
Proof.
  intros (Hk & HN & Hlen) Hd H20.
  rewrite (disperse_unfold_filterbank _ _ _ Hd Hk).
  unfold bind. rewrite shift_rows_completes; simpl; try reflexivity.
  - intros H0. apply Z.div_small_iff in H0; lia.
  - unfold dispersion_delays. rewrite length_fmap. lia.
  - lia.
Qed.

(* One to nineteen channels: the first progress test raises, after row 0
   has been delayed; the flag is not set. *)
Lemma disperse_filterbank_aborts dm self s :
  channelized s -> _dispersed s = None -> (0 < Nchan s < 20)%Z ->
  exists row freq,
    _data s !! 0%nat = Some row /\ _dat_freq s !! 0%nat = Some freq /\
    disperse dm (mkWorld self s)
    = (mkWorld self
         (set_data (<[0%nat := shift_t row (dispersion_delay dm freq)
                                 (sample_interval_ms s)]> (_data s))
            (set_dm dm s)),
       Err ZeroDivisionError).
Proof.
  intros (Hk & HN & Hlen) Hd Hsmall.
  destruct (lookup_lt_is_Some_2 (_data s) 0) as [row Hrow]; [lia|].
  destruct (lookup_lt_is_Some_2 (_dat_freq s) 0) as [freq Hfreq]; [lia|].
  exists row, freq. split; [exact Hrow|]. split; [exact Hfreq|].
  rewrite (disperse_unfold_filterbank _ _ _ Hd Hk).
  unfold bind.
  rewrite (shift_rows_aborts _ _ _ _ _ row (dispersion_delay dm freq));
    simpl; try reflexivity.
  - apply Z.div_small. lia.
  - lia.
  - exact Hrow.
  - now rewrite dispersion_delays_lookup, Hfreq.
Qed.

(** *** [FD_shift] *)

Lemma FD_shift_completes FD_params self s :
  channelized s -> (20 <= Nchan s)%Z ->
  FD_shift FD_params (mkWorld self s)
  = (mkWorld self
       (set_FDshifted true
          (set_data (shifted_rows shift_t (FD_delays (_dat_freq s) FD_params)
                       (sample_interval_ms s) (_data s)) s)),
     Ok tt).
Proof.
  intros (Hk & HN & Hlen) H20.
  unfold FD_shift, bind, get_signal. simpl.
  rewrite shift_rows_completes; simpl; try reflexivity.
  - intros H0. apply Z.div_small_iff in H0; lia.
  - rewrite FD_delays_total, length_map. lia.
  - lia.
Qed.

Lemma FD_shift_aborts FD_params self s :
  channelized s -> (0 < Nchan s < 20)%Z ->
  exists row freq,
    _data s !! 0%nat = Some row /\ _dat_freq s !! 0%nat = Some freq /\
    FD_shift FD_params (mkWorld self s)
    = (mkWorld self
         (set_data (<[0%nat := shift_t row
                       (1000 * FD_total_seconds 1000 freq FD_params 0)
                       (sample_interval_ms s)]> (_data s)) s),
       Err ZeroDivisionError).
Proof.
  intros (Hk & HN & Hlen) Hsmall.
  destruct (lookup_lt_is_Some_2 (_data s) 0) as [row Hrow]; [lia|].
  destruct (lookup_lt_is_Some_2 (_dat_freq s) 0) as [freq Hfreq]; [lia|].
  exists row, freq. split; [exact Hrow|]. split; [exact Hfreq|].
  unfold FD_shift, bind, get_signal. simpl.
  rewrite (shift_rows_aborts _ _ _ _ _ row
             (1000 * FD_total_seconds 1000 freq FD_params 0));
    simpl; try reflexivity.
  - apply Z.div_small. lia.
  - lia.
  - exact Hrow.
  - now rewrite FD_delays_total, list_lookup_fmap, Hfreq.
Qed.

(* No guard: a second call delays the delayed rows once more. *)
Lemma FD_shift_twice FD_params self s :
  channelized s -> (20 <= Nchan s)%Z ->
  let delays := FD_delays (_dat_freq s) FD_params in
  let dt := sample_interval_ms s in
  bind (FD_shift FD_params) (fun _ => FD_shift FD_params) (mkWorld self s)
  = (mkWorld self
       (set_FDshifted true
          (set_data (shifted_rows shift_t delays dt
                       (shifted_rows shift_t delays dt (_data s))) s)),
     Ok tt).
Proof.
  intros Hc H20 delays dt. unfold bind at 1.
  rewrite (FD_shift_completes _ _ _ Hc H20).
  rewrite FD_shift_completes; [reflexivity| |exact H20].
  destruct Hc as (Hk & HN & Hlen). repeat split; simpl; try assumption.
  unfold shifted_rows. rewrite length_zip_with, FD_delays_total, length_map.
  lia.
Qed.

(** *** [_disperse_baseband] *)

Lemma disperse_unfold_baseband dm self s :
  _dispersed s = None ->
  sigtype s = "BasebandSignal"%string ->
  disperse dm (mkWorld self s)
  = bind (_disperse_baseband dm)
         (fun _ => modify_signal (set_dispersed true))
         (mkWorld self (set_dm dm s)).
Proof.
  intros Hd Hk.
  unfold disperse, bind at 1 2, modify_signal at 1, get_signal at 1.
  simpl. rewrite Hd. unfold bind at 1, lift. simpl. rewrite Hk. simpl.
  reflexivity.
Qed.

(* The subtraction [u - signal.bw/2.] raises in the first segment, before
   [H] is formed and before any row is stored. *)
Lemma baseband_unit_mismatch dm self s sig :
  (0 < Nchan s)%Z -> _data s !! 0%nat = Some sig ->
  _disperse_baseband dm (mkWorld self s)
  = (mkWorld self s, Err UnitConversionError).
Proof.
  intros HN Hsig. unfold _disperse_baseband.
  unfold bind at 1, get_signal at 1. simpl.
  destruct (Z.to_nat (Nchan s)) as [|n] eqn:Hn; [lia|]. simpl seq.
  apply for_each_first_raises.
  unfold bind, get_signal, lift, index. simpl.
  now rewrite Hsig.
Qed.

(** *** The claims *)

(** C1. On a signal already dispersed with dm = 10, [disperse] with
    dm = 20 raises ValueError and leaves the data and the flag alone, but
    it has overwritten the recorded dispersion measure: the assignment of
    [signal._dm] precedes the guard. *)
Theorem disperse_again_overwrites_dm (self : ISM) :
  let w := mkWorld self four_channels_dispersed in
  let w' := fst (disperse 20 w) in
  snd (disperse 20 w) = Err ValueError
  /\ _data (w_signal w') = _data (w_signal w)
  /\ _dispersed (w_signal w') = _dispersed (w_signal w)
  /\ _dm (w_signal w) = Some 10
  /\ _dm (w_signal w') = Some 20
  /\ _dm (w_signal w') <> _dm (w_signal w).
Proof.
  intros w w'. subst w'.
  rewrite (disperse_guard 20 w true) by reflexivity.
  simpl. repeat split. intros H. injection H. lra.
Qed.

(** C2. On the four-channel signal of the specification's scenario
    (1200..1500 MHz, 1 kHz, dm = 10) [disperse] delays the row of channel
    0 by the delay of 1200 MHz and then raises ZeroDivisionError in the
    progress test: the rows of channels 1 to 3 are never delayed and the
    dispersed flag is not set. *)
Theorem disperse_four_channels_aborts (self : ISM) :
  disperse 10 (mkWorld self four_channels)
  = (mkWorld self
       (set_data
          [shift_t [1; 0; 0; 0] (dispersion_delay 10 1200)
             (sample_interval_ms four_channels);
           [0; 1; 0; 0]; [0; 0; 1; 0]; [0; 0; 0; 1]]
          (set_dm 10 four_channels)),
     Err ZeroDivisionError).
Proof.
  destruct (disperse_filterbank_aborts 10 self four_channels
              channelized_four_channels)
    as (row & freq & Hrow & Hfreq & Hrun); [reflexivity | simpl; lia |].
  injection Hrow as <-. injection Hfreq as <-. exact Hrun.
Qed.

(** C3. With convolve = true [scatter_broaden] never reaches
    [raise NotImplementedError()]: the call [self.scale_tau_d(tau_d,
    ref_freq, freq_array, beta=beta)] binds [beta] twice, because
    [scale_tau_d] has no [self] parameter, and raises TypeError.  The
    store is left as it was. *)
Theorem scatter_broaden_convolve_TypeError (tau_d ref_freq beta : R)
  (w : World) :
  scatter_broaden tau_d ref_freq beta true w = (w, Err TypeError)
  /\ snd (scatter_broaden tau_d ref_freq beta true w)
     <> Err NotImplementedError.
Proof.
  rewrite scatter_broaden_fails. split; [reflexivity | discriminate].
Qed.

(** C4. With convolve = false [scatter_broaden] raises TypeError in the
    call of [scale_tau_d], for the same reason, before any delay is
    computed: no row is delayed. *)
Theorem scatter_broaden_shift_TypeError (tau_d ref_freq beta : R)
  (w : World) :
  scatter_broaden tau_d ref_freq beta false w = (w, Err TypeError).
Proof. apply scatter_broaden_fails. Qed.

(** C5. On a baseband signal of one segment [disperse] raises
    UnitConversionError at [f = u - signal.bw/2.], where a bandwidth in
    MHz is subtracted from an axis tagged 'us': the transfer function is
    never formed, the row is not overwritten and the dispersed flag is not
    set. *)
Theorem disperse_baseband_UnitConversionError (dm : R) :
  disperse dm (mkWorld ISM__init__ one_baseband)
  = (mkWorld ISM__init__ (set_dm dm one_baseband),
     Err UnitConversionError).
Proof.
  rewrite disperse_unfold_baseband by reflexivity.
  unfold bind.
  rewrite (baseband_unit_mismatch dm ISM__init__
             (set_dm dm one_baseband) [1; 2; 3; 4]);
    [reflexivity | simpl; lia | reflexivity].
Qed.


(** C7. On the four-channel signal [FD_shift] delays the row of channel 0
    by the FD delay of 1200 MHz (the sum of the specification, in ms) and
    then raises ZeroDivisionError in the progress test: the rows of
    channels 1 to 3 are never delayed and [_FDshifted] is not set. *)
Theorem FD_shift_four_channels_aborts (FD_params : list R) (self : ISM) :
  FD_shift FD_params (mkWorld self four_channels)
  = (mkWorld self
       (set_data
          [shift_t [1; 0; 0; 0]
             (1000 * FD_total_seconds 1000 1200 FD_params 0)
             (sample_interval_ms four_channels);
           [0; 1; 0; 0]; [0; 0; 1; 0]; [0; 0; 0; 1]]
          four_channels),
     Err ZeroDivisionError).
Proof.
  destruct (FD_shift_aborts FD_params self four_channels
              channelized_four_channels)
    as (row & freq & Hrow & Hfreq & Hrun); [simpl; lia |].
  injection Hrow as <-. injection Hfreq as <-. exact Hrun.
Qed.

(** C8. For every channelized signal, [disperse] with dm = 0 leaves the
    data unchanged (whether it returns or raises), given that the delay
    primitive returns the row it is given when the delay is 0: every
    computed delay is 0. *)
Theorem disperse_zero_dm_keeps_data (w : World) :
  stable_at_zero shift_t ->
  sigtype (w_signal w) = "FilterBankSignal"%string ->
  _data (w_signal (fst (disperse 0 w))) = _data (w_signal w).
Proof.
  intros Hzero Hk. destruct w as [self s]. simpl in Hk.
  destruct (_dispersed s) as [b|] eqn:Hd.
  - now rewrite (disperse_guard 0 (mkWorld self s) b Hd).
  - rewrite (disperse_unfold_filterbank _ _ _ Hd Hk).
    unfold shift_rows, bind.
    destruct (shift_loop_zero (dispersion_delays 0 (_dat_freq s))
                (sample_interval_ms s) (seq 0 (length (_dat_freq s)))
                (mkWorld self (set_dm 0 s)) Hzero
                (dispersion_delays_zero (_dat_freq s)))
      as [r ->].
    now destruct r.
Qed.

(** C9, as amended. For every signal not yet dispersed whose kind is
    neither FilterBankSignal nor BasebandSignal, [disperse] raises
    nothing: it records dm, leaves the data untouched and sets the
    dispersed flag. *)
Theorem disperse_unrecognised_kind_completes (dm : R) (w : World) :
  _dispersed (w_signal w) = None ->
  sigtype (w_signal w) <> "FilterBankSignal"%string ->
  sigtype (w_signal w) <> "BasebandSignal"%string ->
  disperse dm w
  = (mkWorld (w_self w) (set_dispersed true (set_dm dm (w_signal w))),
     Ok tt).
Proof.
  intros Hd Hf Hb. unfold disperse, bind, modify_signal, get_signal, lift.
  simpl. rewrite Hd. simpl.
  apply String.eqb_neq in Hf, Hb. now rewrite Hf, Hb.
Qed.

(** C10, as amended. For every channelized signal of one to nineteen
    channels, [disperse] (when the signal is not yet dispersed) and
    [FD_shift] raise ZeroDivisionError in the progress test of the first
    iteration, after the row of channel 0 has been replaced by its
    delayed row and before any other row or flag is written. *)
Theorem small_signal_loops_abort (dm : R) (FD_params : list R)
  (self : ISM) (s : Signal) :
  channelized s -> (0 < Nchan s < 20)%Z ->
  exists row freq,
    _data s !! 0%nat = Some row /\ _dat_freq s !! 0%nat = Some freq
    /\ (_dispersed s = None ->
        disperse dm (mkWorld self s)
        = (mkWorld self
             (set_data (<[0%nat := shift_t row (dispersion_delay dm freq)
                                     (sample_interval_ms s)]> (_data s))
                (set_dm dm s)),
           Err ZeroDivisionError))
    /\ FD_shift FD_params (mkWorld self s)
       = (mkWorld self
            (set_data (<[0%nat := shift_t row
                          (1000 * FD_total_seconds 1000 freq FD_params 0)
                          (sample_interval_ms s)]> (_data s)) s),
          Err ZeroDivisionError).
Proof.
  intros Hc Hsmall.
  destruct (FD_shift_aborts FD_params self s Hc Hsmall)
    as (row & freq & Hrow & Hfreq & HFD).
  exists row, freq. repeat split; try assumption.
  intros Hd.
  destruct (disperse_filterbank_aborts dm self s Hc Hd Hsmall)
    as (row' & freq' & Hrow' & Hfreq' & Hrun).
  rewrite Hrow in Hrow'. rewrite Hfreq in Hfreq'.
  injection Hrow' as <-. injection Hfreq' as <-. exact Hrun.
Qed.

End Properties.



Lemma disperse_zero_dm_keeps_data_witness :
  _data (w_signal (fst (disperse rotate_shift sample_DM_K sec no_rfft
                          no_irfft 0 (mkWorld ISM__init__ four_channels))))
  = _data four_channels.
Proof.
  apply (disperse_zero_dm_keeps_data rotate_shift sample_DM_K sec no_rfft
           no_irfft (mkWorld ISM__init__ four_channels)).
  - exact rotate_shift_zero.
  - reflexivity.
Defined.

Lemma disperse_unrecognised_kind_completes_witness :
  disperse rotate_shift sample_DM_K sec no_rfft no_irfft 10
    (mkWorld ISM__init__ plain_signal)
  = (mkWorld ISM__init__ (set_dispersed true (set_dm 10 plain_signal)),
     Ok tt).
Proof.
  apply (disperse_unrecognised_kind_completes rotate_shift sample_DM_K sec
           no_rfft no_irfft 10 (mkWorld ISM__init__ plain_signal));
    [reflexivity | discriminate | discriminate].
Defined.

(** C9, as stated, fails: on a signal of kind "Signal" [disperse] returns
    normally. *)
Lemma disperse_plain_signal_returns :
  sigtype plain_signal <> "FilterBankSignal"%string
  /\ sigtype plain_signal <> "BasebandSignal"%string
  /\ is_err (snd (disperse rotate_shift sample_DM_K sec no_rfft no_irfft 10
                    (mkWorld ISM__init__ plain_signal))) = false.
Proof.
  split; [discriminate|]. split; [discriminate|]. reflexivity.
Qed.

Lemma small_signal_loops_abort_witness :
  exists row freq,
    _data four_channels !! 0%nat = Some row
    /\ _dat_freq four_channels !! 0%nat = Some freq
    /\ (_dispersed four_channels = None ->
        disperse rotate_shift sample_DM_K sec no_rfft no_irfft 10
          (mkWorld ISM__init__ four_channels)
        = (mkWorld ISM__init__
             (set_data (<[0%nat := rotate_shift row
                             (dispersion_delay sample_DM_K sec 10 freq)
                             (sample_interval_ms four_channels)]>
                          (_data four_channels))
                (set_dm 10 four_channels)),
           Err ZeroDivisionError))
    /\ FD_shift rotate_shift [0.0001] (mkWorld ISM__init__ four_channels)
       = (mkWorld ISM__init__
            (set_data (<[0%nat := rotate_shift row
                            (1000 * FD_total_seconds 1000 freq [0.0001] 0)
                            (sample_interval_ms four_channels)]>
                         (_data four_channels)) four_channels),
          Err ZeroDivisionError).
Proof.
  apply (small_signal_loops_abort rotate_shift sample_DM_K sec no_rfft
           no_irfft 10 [0.0001] ISM__init__ four_channels).
  - repeat split.
  - simpl. lia.
Defined.

(** C10, as stated, fails for [scatter_broaden]: on a four-channel signal
    with convolve = false it raises TypeError before its loop, not
    ZeroDivisionError, and no row has been replaced. *)
Lemma scatter_broaden_small_signal_TypeError :
  channelized four_channels
  /\ (Nchan four_channels / 20 = 0)%Z
  /\ scatter_broaden rotate_shift (11 / 3) 0.001 1400 (11 / 3) false
       (mkWorld ISM__init__ four_channels)
     = (mkWorld ISM__init__ four_channels, Err TypeError)
  /\ snd (scatter_broaden rotate_shift (11 / 3) 0.001 1400 (11 / 3) false
            (mkWorld ISM__init__ four_channels))
     <> Err ZeroDivisionError.
Proof.
  split; [repeat split|]. split; [reflexivity|].
  rewrite scatter_broaden_fails. split; [reflexivity | discriminate].
Qed.

(** * Further properties *)

(** ** The three scaling laws *)

Lemma scale_tau_d_power_law q f1 f2 beta :
  scale_tau_d q f1 f2 beta = power_law (tau_d_exp beta) q f1 f2.
Proof. reflexivity. Qed.

Lemma scale_dnu_d_power_law q f1 f2 beta :
  scale_dnu_d q f1 f2 beta = power_law (dnu_d_exp beta) q f1 f2.
Proof. reflexivity. Qed.

Lemma scale_dt_d_power_law q f1 f2 beta :
  scale_dt_d q f1 f2 beta = power_law (dt_d_exp beta) q f1 f2.
Proof. reflexivity. Qed.

(* With an exponent and frequencies of one sign, a law returns the
   quantity times the factor, or raises when the factor overflows. *)
Lemma power_law_result e q f1 f2 :
  0 < f1 * f2 ->
  power_law (Ok (Some e)) q f1 f2
  = let? p := float_result (Rpower (f2 / f1) e) in Ok (q * p).
Proof.
  intros Hf. destruct (same_sign_ratio f1 f2 Hf) as [H1 Hr].
  unfold power_law. cbn [rbind]. rewrite py_div_ok by exact H1.
  cbn [rbind]. now rewrite py_pow_positive_base.
Qed.

Lemma power_law_defined e q f1 f2 :
  0 < f1 * f2 -> Rpower (f2 / f1) e <= float_max ->
  power_law (Ok (Some e)) q f1 f2 = Ok (q * Rpower (f2 / f1) e).
Proof.
  intros Hf Hp. rewrite power_law_result by exact Hf.
  rewrite float_result_ok; [reflexivity|].
  rewrite Rabs_pos_eq; [exact Hp | apply Rlt_le, Rpower_pos].
Qed.

Lemma power_law_unbound q f1 f2 :
  f1 <> 0 -> power_law (Ok None) q f1 f2 = Err UnboundLocalError.
Proof. intros H1. unfold power_law. simpl. now rewrite py_div_ok. Qed.





(* The exponent of the scattering time is the opposite of that of the
   bandwidth. *)
Lemma tau_d_exp_opposite beta e :
  dnu_d_exp beta = Ok (Some e) -> tau_d_exp beta = Ok (Some (- e)).
Proof.
  unfold dnu_d_exp, tau_d_exp, py_div.
  destruct (Rlt_dec beta 4).
  - destruct (Req_dec_T (beta - 2) 0); [discriminate|].
    cbn [rbind]. intros [= <-]. do 2 f_equal. now field.
  - destruct (Rgt_dec beta 4); [|discriminate].
    destruct (Req_dec_T (6 - beta) 0); [discriminate|].
    cbn [rbind]. intros [= <-]. do 2 f_equal. now field.
Qed.

Lemma dnu_d_exp_regular beta :
  regular_beta beta -> exists e, dnu_d_exp beta = Ok (Some e).
Proof.
  intros (H2 & H4 & H6). unfold dnu_d_exp.
  destruct (Rlt_dec beta 4).
  - rewrite py_div_ok by lra. simpl. eauto.
  - destruct (Rgt_dec beta 4); [|lra].
    rewrite py_div_ok by lra. simpl. eauto.
Qed.

Lemma dt_d_exp_regular beta :
  regular_beta beta -> exists e, dt_d_exp beta = Ok (Some e).
Proof.
  intros (H2 & H4 & H6). unfold dt_d_exp.
  destruct (Rlt_dec beta 4).
  - rewrite py_div_ok by lra. simpl. eauto.
  - destruct (Rgt_dec beta 4); [|lra].
    rewrite py_div_ok by lra. simpl. eauto.
Qed.

Lemma regular_kolmogorov : regular_beta (11 / 3).
Proof. unfold regular_beta. lra. Qed.

Lemma kolmogorov_dnu_exp : dnu_d_exp (11 / 3) = Ok (Some (22 / 5)).
Proof.
  unfold dnu_d_exp. destruct (Rlt_dec (11 / 3) 4); [|lra].
  rewrite py_div_ok by lra. simpl. do 2 f_equal. field.
Qed.

Lemma kolmogorov_dt_exp : dt_d_exp (11 / 3) = Ok (Some (6 / 5)).
Proof.
  unfold dt_d_exp. destruct (Rlt_dec (11 / 3) 4); [|lra].
  rewrite py_div_ok by lra. simpl. do 2 f_equal. field.
Qed.









(** X5. Scaling to the frequency of measurement changes nothing: for a
    regular spectral index and a non-zero frequency, each law returns the
    quantity it is given when [nu_f] is [nu_i]. *)
Theorem scaling_to_same_frequency (x f beta : R) :
  regular_beta beta -> f <> 0 ->
  scale_tau_d x f f beta = Ok x
  /\ scale_dnu_d x f f beta = Ok x
  /\ scale_dt_d x f f beta = Ok x.
Proof.
  intros Hb Hf.
  destruct (dnu_d_exp_regular beta Hb) as (e & He).
  pose proof (tau_d_exp_opposite beta e He) as He'.
  destruct (dt_d_exp_regular beta Hb) as (e' & Hd).
  assert (Hff : 0 < f * f) by (apply Rsqr_pos_lt in Hf; exact Hf).
  assert (H1 : forall e0, Rpower (f / f) e0 = 1).
  { intros e0. replace (f / f) with 1 by (field; exact Hf).
    unfold Rpower. rewrite ln_1, Rmult_0_r. apply exp_0. }
  rewrite scale_tau_d_power_law, scale_dnu_d_power_law,
    scale_dt_d_power_law, He, He', Hd.
  rewrite !power_law_defined
    by (try exact Hff; rewrite H1; apply float_max_ge_1).
  rewrite !H1, Rmult_1_r. repeat split.
Qed.

Lemma scaling_to_same_frequency_witness :
  scale_tau_d 3 1400 1400 (11 / 3) = Ok 3
  /\ scale_dnu_d 3 1400 1400 (11 / 3) = Ok 3
  /\ scale_dt_d 3 1400 1400 (11 / 3) = Ok 3.
Proof.
  apply scaling_to_same_frequency; [exact regular_kolmogorov | lra].
Defined.

(** X6. At a spectral index of exactly 4 neither branch binds [exp]: each
    of the three laws raises UnboundLocalError, once the quotient of the
    frequencies has been taken (the reference frequency is not 0). *)
Theorem scaling_laws_unbound_at_4 (x f1 f2 : R) :
  f1 <> 0 ->
  scale_tau_d x f1 f2 4 = Err UnboundLocalError
  /\ scale_dnu_d x f1 f2 4 = Err UnboundLocalError
  /\ scale_dt_d x f1 f2 4 = Err UnboundLocalError.
Proof.
  intros H1.
  rewrite scale_tau_d_power_law, scale_dnu_d_power_law, scale_dt_d_power_law.
  unfold tau_d_exp, dnu_d_exp, dt_d_exp.
  destruct (Rlt_dec 4 4); [lra|]. destruct (Rgt_dec 4 4); [lra|].
  rewrite power_law_unbound by exact H1. repeat split.
Qed.

Lemma scaling_laws_unbound_at_4_witness :
  scale_tau_d 1 1000 2000 4 = Err UnboundLocalError
  /\ scale_dnu_d 1 1000 2000 4 = Err UnboundLocalError
  /\ scale_dt_d 1 1000 2000 4 = Err UnboundLocalError.
Proof. apply scaling_laws_unbound_at_4. lra. Defined.

(** X7. At a spectral index of 2 and at one of 6 the exponent of each of
    the three laws is a division by zero: each raises ZeroDivisionError,
    whatever the quantity and the frequencies. *)
Theorem scaling_laws_singular_beta (x f1 f2 : R) :
  (scale_tau_d x f1 f2 2 = Err ZeroDivisionError
   /\ scale_dnu_d x f1 f2 2 = Err ZeroDivisionError
   /\ scale_dt_d x f1 f2 2 = Err ZeroDivisionError)
  /\ (scale_tau_d x f1 f2 6 = Err ZeroDivisionError
      /\ scale_dnu_d x f1 f2 6 = Err ZeroDivisionError
      /\ scale_dt_d x f1 f2 6 = Err ZeroDivisionError).
Proof.
  unfold scale_tau_d, scale_dnu_d, scale_dt_d, tau_d_exp, dnu_d_exp,
    dt_d_exp.
  destruct (Rlt_dec 2 4); [|lra].
  destruct (Rlt_dec 6 4); [lra|]. destruct (Rgt_dec 6 4); [|lra].
  replace (2 - 2) with 0 by ring. replace (6 - 6) with 0 by ring.
  rewrite !py_div_zero. repeat split.
Qed.

Lemma exp_outcome_dnu beta :
  dnu_d_exp beta = Err ZeroDivisionError \/ exists o, dnu_d_exp beta = Ok o.
Proof.
  unfold dnu_d_exp, py_div.
  destruct (Rlt_dec beta 4).
  - destruct (Req_dec_T (beta - 2) 0); simpl; eauto.
  - destruct (Rgt_dec beta 4); [|eauto].
    destruct (Req_dec_T (6 - beta) 0); simpl; eauto.
Qed.

Lemma exp_outcome_dt beta :
  dt_d_exp beta = Err ZeroDivisionError \/ exists o, dt_d_exp beta = Ok o.
Proof.
  unfold dt_d_exp, py_div.
  destruct (Rlt_dec beta 4).
  - destruct (Req_dec_T (beta - 2) 0); simpl; eauto.
  - destruct (Rgt_dec beta 4); [|eauto].
    destruct (Req_dec_T (6 - beta) 0); simpl; eauto.
Qed.

(** X8. A reference frequency of 0 makes each of the three laws raise
    ZeroDivisionError, whatever the spectral index, 4 included. *)
Theorem scaling_laws_zero_reference (x f2 beta : R) :
  scale_tau_d x 0 f2 beta = Err ZeroDivisionError
  /\ scale_dnu_d x 0 f2 beta = Err ZeroDivisionError
  /\ scale_dt_d x 0 f2 beta = Err ZeroDivisionError.
Proof.
  split; [|split].
  - unfold scale_tau_d.
    destruct (tau_d_exp_outcome beta) as [-> | [o ->]]; [reflexivity|].
    simpl. now rewrite py_div_zero.
  - unfold scale_dnu_d.
    destruct (exp_outcome_dnu beta) as [-> | [o ->]]; [reflexivity|].
    simpl. now rewrite py_div_zero.
  - unfold scale_dt_d.
    destruct (exp_outcome_dt beta) as [-> | [o ->]]; [reflexivity|].
    simpl. now rewrite py_div_zero.
Qed.

(** X9. At the Kolmogorov index 11/3 the exponents are the ones the
    source notes beside each branch: 22/5 for the bandwidth, 6/5 for the
    timescale and -22/5 for the scattering time.  For every quantity and
    every pair of non-zero frequencies of one sign each law returns the
    quantity times the frequency ratio to that power, or raises
    OverflowError when that power is beyond the largest float. *)
Theorem kolmogorov_exponents (x f1 f2 : R) :
  0 < f1 * f2 ->
  scale_dnu_d x f1 f2 (11 / 3)
  = (let? p := float_result (Rpower (f2 / f1) (22 / 5)) in Ok (x * p))
  /\ scale_dt_d x f1 f2 (11 / 3)
     = (let? p := float_result (Rpower (f2 / f1) (6 / 5)) in Ok (x * p))
  /\ scale_tau_d x f1 f2 (11 / 3)
     = (let? p := float_result (Rpower (f2 / f1) (- 22 / 5)) in
        Ok (x * p)).
Proof.
  intros Hf.
  rewrite scale_tau_d_power_law, scale_dnu_d_power_law, scale_dt_d_power_law.
  rewrite kolmogorov_exp, kolmogorov_dnu_exp, kolmogorov_dt_exp.
  rewrite !power_law_result by exact Hf. repeat split.
Qed.

Lemma kolmogorov_exponents_witness :
  scale_dnu_d 1 1000 2000 (11 / 3)
  = (let? p := float_result (Rpower (2000 / 1000) (22 / 5)) in Ok (1 * p))
  /\ scale_dt_d 1 1000 2000 (11 / 3)
     = (let? p := float_result (Rpower (2000 / 1000) (6 / 5)) in
        Ok (1 * p))
  /\ scale_tau_d 1 1000 2000 (11 / 3)
     = (let? p := float_result (Rpower (2000 / 1000) (- 22 / 5)) in
        Ok (1 * p)).
Proof. apply kolmogorov_exponents. lra. Defined.




(** ** What the loops keep *)

Lemma frame_refl s : frame s s.
Proof. split; [now rewrite set_data_same | reflexivity]. Qed.

Lemma frame_trans s1 s2 s3 : frame s1 s2 -> frame s2 s3 -> frame s1 s3.
Proof.
  intros [E12 L12] [E23 L23]. split; [|congruence].
  rewrite E23 at 1. rewrite E12. reflexivity.
Qed.

Lemma frame_set_row s ii row :
  frame s (set_data (<[ii := row]> (_data s)) s).
Proof. split; [reflexivity | apply length_insert]. Qed.

Lemma keeps_frame_refl w : keeps_frame w w.
Proof. split; [reflexivity | apply frame_refl]. Qed.

Lemma keeps_frame_trans w1 w2 w3 :
  keeps_frame w1 w2 -> keeps_frame w2 w3 -> keeps_frame w1 w3.
Proof.
  intros [S12 F12] [S23 F23]. split; [congruence|].
  eapply frame_trans; eassumption.
Qed.

Lemma signal_frame_refl w : signal_frame w w.
Proof. apply frame_refl. Qed.

Lemma signal_frame_trans w1 w2 w3 :
  signal_frame w1 w2 -> signal_frame w2 w3 -> signal_frame w1 w3.
Proof. apply frame_trans. Qed.

Section Keeping.

Variable Rel : World -> World -> Prop.
Hypothesis Rel_refl : forall w, Rel w w.
Hypothesis Rel_trans : forall w1 w2 w3, Rel w1 w2 -> Rel w2 w3 -> Rel w1 w3.

Lemma keeps_pure {A} (r : result A) : keeps Rel (lift r).
Proof. intros w. apply Rel_refl. Qed.

Lemma keeps_bind {A B} (m : M A) (k : A -> M B) :
  keeps Rel m -> (forall a, keeps Rel (k a)) -> keeps Rel (bind m k).
Proof.
  intros Hm Hk w. unfold bind. specialize (Hm w).
  destruct (m w) as [w1 [a|e]]; simpl in *; [|exact Hm].
  eapply Rel_trans; [exact Hm | apply Hk].
Qed.

(* A loop keeps what each of its iterations keeps. *)
Lemma for_each_keeps {A} (xs : list A) (body : A -> M unit) :
  (forall x, keeps Rel (body x)) -> keeps Rel (for_each xs body).
Proof.
  intros Hbody. induction xs as [|x xs IH]; simpl.
  - intros w. apply Rel_refl.
  - apply keeps_bind; [apply Hbody | intros _; exact IH].
Qed.

End Keeping.

Lemma set_row_keeps ii row : keeps keeps_frame (set_row ii row).
Proof.
  intros [self s]. unfold set_row, bind, get_signal, modify_signal, raise.
  simpl. destruct (_data s !! ii); simpl.
  - split; [reflexivity | apply frame_set_row].
  - apply keeps_frame_refl.
Qed.

Lemma keeps_frame_signal {A} (m : M A) :
  keeps keeps_frame m -> keeps signal_frame m.
Proof. intros H w. apply H. Qed.

Section Coverage.

Variable shift_t : Row -> R -> R -> Row.
Variable DM_K : R.
Variable DM_K_unit : time_unit.
Variable rfft : Row -> list Cplx.
Variable irfft : list Cplx -> Row.

Local Abbreviation disperse := (disperse shift_t DM_K DM_K_unit rfft irfft).
Local Abbreviation _disperse_baseband := (_disperse_baseband DM_K rfft irfft).
Local Abbreviation dispersion_delay := (dispersion_delay DM_K DM_K_unit).
Local Abbreviation dispersion_delays := (dispersion_delays DM_K DM_K_unit).
Local Abbreviation FD_shift := (FD_shift shift_t).
Local Abbreviation shift_row := (shift_row shift_t).
Local Abbreviation shift_rows := (shift_rows shift_t).

Lemma shift_row_keeps delays dt ii w :
  keeps_frame w (fst (shift_row delays dt ii w)).
Proof.
  destruct w as [self s].
  destruct (_data s !! ii) as [row|] eqn:Hrow.
  - destruct (delays !! ii) as [d|] eqn:Hd.
    + rewrite (shift_row_step shift_t _ _ _ _ _ _ _ Hrow Hd). simpl.
      split; [reflexivity | apply frame_set_row].
    + unfold shift_row, get_row, index, bind, lift, get_signal. simpl.
      rewrite Hrow, Hd. apply keeps_frame_refl.
  - unfold shift_row, get_row, index, bind, lift, get_signal. simpl.
    rewrite Hrow. apply keeps_frame_refl.
Qed.

Lemma shift_rows_keeps freq delays dt :
  keeps keeps_frame (shift_rows freq delays dt).
Proof.
  unfold shift_rows.
  apply (for_each_keeps keeps_frame keeps_frame_refl keeps_frame_trans).
  intros ii w. apply shift_row_keeps.
Qed.

Ltac signal_bind := apply (keeps_bind signal_frame signal_frame_trans).
Ltac signal_pure := apply (keeps_pure signal_frame signal_frame_refl).

Lemma baseband_keeps dm : keeps signal_frame (_disperse_baseband dm).
Proof.
  unfold _disperse_baseband.
  signal_bind; [intros w; apply signal_frame_refl|]. intros s0.
  apply (for_each_keeps signal_frame signal_frame_refl signal_frame_trans).
  intros x.
  signal_bind; [intros w; apply signal_frame_refl|]. intros s.
  signal_bind; [signal_pure|]. intros sig.
  signal_bind; [signal_pure|]. intros f.
  signal_bind; [intros w; apply signal_frame_refl|]. intros self.
  signal_bind; [signal_pure|]. intros md.
  signal_bind.
  - destruct (String.eqb (mode md) "explore");
      [|intros w; apply signal_frame_refl].
    signal_bind; [signal_pure|]. intros sin.
    destruct (undispersedsig sin !! x); intros w; unfold signal_frame;
      simpl; apply frame_refl.
  - intros _. apply keeps_frame_signal, set_row_keeps.
Qed.

Lemma filterbank_keeps dm :
  keeps keeps_frame (_disperse_filterbank shift_t DM_K DM_K_unit dm).
Proof.
  intros w. unfold _disperse_filterbank, bind, get_signal.
  apply shift_rows_keeps.
Qed.

Lemma disperse_unfold_fresh dm self s :
  _dispersed s = None ->
  disperse dm (mkWorld self s)
  = bind (if String.eqb (sigtype s) "FilterBankSignal" then
            _disperse_filterbank shift_t DM_K DM_K_unit dm
          else if String.eqb (sigtype s) "BasebandSignal" then
            _disperse_baseband dm
          else ret tt)
         (fun _ => modify_signal (set_dispersed true))
         (mkWorld self (set_dm dm s)).
Proof.
  intros Hd.
  unfold disperse, bind at 1 2, modify_signal at 1, get_signal at 1.
  simpl. rewrite Hd. unfold bind at 1, lift. simpl. reflexivity.
Qed.

(** X11. Whatever the signal and whatever the outcome, [disperse] leaves
    the kind, the frequencies, the rates and the number of rows as they
    were and records dm; it sets the dispersed flag exactly when it
    returns normally, which it does only on a signal not yet
    dispersed. *)
Theorem disperse_footprint (dm : R) (w : World) :
  exists d,
    length d = length (_data (w_signal w))
    /\ w_signal (fst (disperse dm w))
       = (if is_err (snd (disperse dm w))
          then set_data d (set_dm dm (w_signal w))
          else set_dispersed true (set_data d (set_dm dm (w_signal w))))
    /\ (is_err (snd (disperse dm w)) = false ->
        _dispersed (w_signal w) = None).
Proof.
  destruct w as [self s]. simpl.
  destruct (_dispersed s) as [b|] eqn:Hd.
  - rewrite (disperse_guard shift_t DM_K DM_K_unit rfft irfft dm
               (mkWorld self s) b Hd).
    exists (_data s). simpl. repeat split. discriminate.
  - rewrite (disperse_unfold_fresh dm self s Hd).
    match goal with |- context [bind ?m _ _] => set (branch := m) end.
    assert (Hk : keeps signal_frame branch).
    { subst branch. destruct (String.eqb (sigtype s) "FilterBankSignal").
      - apply keeps_frame_signal, filterbank_keeps.
      - destruct (String.eqb (sigtype s) "BasebandSignal").
        + apply baseband_keeps.
        + intros w. apply signal_frame_refl. }
    specialize (Hk (mkWorld self (set_dm dm s))). unfold bind.
    destruct (branch (mkWorld self (set_dm dm s))) as [w2 [[]|e]];
      destruct Hk as [Hs Hl]; simpl in *;
      exists (_data (w_signal w2)); rewrite <- Hs; repeat split;
      assumption.
Qed.

Lemma FD_shift_unfold FD_params self s :
  FD_shift FD_params (mkWorld self s)
  = bind (shift_rows (_dat_freq s) (FD_delays (_dat_freq s) FD_params)
            (sample_interval_ms s))
         (fun _ => modify_signal (set_FDshifted true)) (mkWorld self s).
Proof. reflexivity. Qed.

Lemma FD_shift_keeps FD_params self s :
  exists w2 r,
    shift_rows (_dat_freq s) (FD_delays (_dat_freq s) FD_params)
      (sample_interval_ms s) (mkWorld self s) = (w2, r)
    /\ keeps_frame (mkWorld self s) w2.
Proof.
  pose proof (shift_rows_keeps (_dat_freq s)
                (FD_delays (_dat_freq s) FD_params) (sample_interval_ms s)
                (mkWorld self s)) as Hk.
  destruct (shift_rows _ _ _ _) as [w2 r]. eauto.
Qed.

(** X12. Whatever the signal and whatever the outcome, [FD_shift] leaves
    everything but the contents of the rows and the FD flag as it was,
    the recorded dm and the dispersed flag included, and keeps the
    number of rows; it sets [_FDshifted] exactly when it returns
    normally. *)
Theorem FD_shift_footprint (FD_params : list R) (w : World) :
  exists d,
    length d = length (_data (w_signal w))
    /\ w_self (fst (FD_shift FD_params w)) = w_self w
    /\ w_signal (fst (FD_shift FD_params w))
       = (if is_err (snd (FD_shift FD_params w))
          then set_data d (w_signal w)
          else set_FDshifted true (set_data d (w_signal w))).
Proof.
  destruct w as [self s]. simpl.
  destruct (FD_shift_keeps FD_params self s) as (w2 & r & Hrun & Hself & Hs & Hl).
  rewrite FD_shift_unfold. unfold bind. rewrite Hrun.
  simpl in *. exists (_data (w_signal w2)).
  destruct r as [[]|e]; simpl; rewrite <- Hs; repeat split; assumption.
Qed.

End Coverage.

Lemma channelized_twenty_channels : channelized twenty_channels.
Proof. repeat split. Qed.

Section Coverage2.

Variable shift_t : Row -> R -> R -> Row.
Variable DM_K : R.
Variable DM_K_unit : time_unit.
Variable rfft : Row -> list Cplx.
Variable irfft : list Cplx -> Row.

Local Abbreviation disperse := (disperse shift_t DM_K DM_K_unit rfft irfft).
Local Abbreviation _disperse_baseband := (_disperse_baseband DM_K rfft irfft).
Local Abbreviation dispersion_delay := (dispersion_delay DM_K DM_K_unit).
Local Abbreviation dispersion_delays := (dispersion_delays DM_K DM_K_unit).
Local Abbreviation FD_shift := (FD_shift shift_t).
Local Abbreviation chirp := (chirp DM_K).

(** X13. With a positive dispersion constant and a positive dm, of two
    channels the one at the higher (positive) frequency gets the strictly
    smaller entry of the delay array. *)
Theorem dispersion_delays_descend (dm : R) (freq_array : list R)
  (i j : nat) (fi fj : R) :
  0 < DM_K -> 0 < dm ->
  freq_array !! i = Some fi -> freq_array !! j = Some fj ->
  0 < fi -> fi < fj ->
  exists di dj,
    dispersion_delays dm freq_array !! i = Some di
    /\ dispersion_delays dm freq_array !! j = Some dj
    /\ dj < di.
Proof.
  intros HK Hdm Hi Hj Hpos Hlt.
  exists (dispersion_delay dm fi), (dispersion_delay dm fj).
  rewrite !dispersion_delays_lookup, Hi, Hj. repeat split.
  now apply dispersion_delay_decreasing.
Qed.

(** X14. The delay is linear in dm and falls with the square of the
    frequency: multiplying dm by a and a non-zero frequency by a non-zero
    c multiplies the delay by a / c^2. *)
Theorem dispersion_delay_scaling (dm freq a c : R) :
  freq <> 0 -> c <> 0 ->
  dispersion_delay (a * dm) (c * freq)
  = a / c ^ 2 * dispersion_delay dm freq.
Proof.
  intros Hf Hc. rewrite !dispersion_delay_formula, !to_ms_value.
  field. split; assumption.
Qed.

(** X15. On a channelized signal of twenty channels or more that is not
    yet dispersed, [disperse] returns normally, records dm, sets the
    flag, and replaces the row of every channel by that row delayed by
    the delay of the channel's frequency, with the sample interval in
    ms. *)
Theorem disperse_delays_every_row (dm : R) (self : ISM) (s : Signal) :
  channelized s -> _dispersed s = None -> (20 <= Nchan s)%Z ->
  exists s',
    disperse dm (mkWorld self s) = (mkWorld self s', Ok tt)
    /\ _dm s' = Some dm /\ _dispersed s' = Some true
    /\ length (_data s') = length (_data s)
    /\ forall i row freq,
         _data s !! i = Some row -> _dat_freq s !! i = Some freq ->
         _data s' !! i
         = Some (shift_t row (dispersion_delay dm freq)
                   (sample_interval_ms s)).
Proof.
  intros Hc Hd H20.
  rewrite (disperse_filterbank_completes _ _ _ _ _ dm self s Hc Hd H20).
  eexists. split; [reflexivity|]. simpl. repeat split.
  - unfold shifted_rows, dispersion_delays.
    destruct Hc as (_ & _ & Hlen).
    rewrite length_zip_with, length_map. lia.
  - intros i row freq Hrow Hfreq. unfold shifted_rows.
    rewrite lookup_zip_with, Hrow, dispersion_delays_lookup, Hfreq.
    reflexivity.
Qed.

(** X16. Two calls of [disperse] in a row on such a signal: the second
    raises ValueError, the rows stay as the first call left them (delayed
    once, by the first dm), and the recorded dm is the second one. *)
Theorem disperse_then_disperse (dm1 dm2 : R) (self : ISM) (s : Signal) :
  channelized s -> _dispersed s = None -> (20 <= Nchan s)%Z ->
  bind (disperse dm1) (fun _ => disperse dm2) (mkWorld self s)
  = (mkWorld self
       (set_dm dm2
          (set_dispersed true
             (set_data
                (shifted_rows shift_t (dispersion_delays dm1 (_dat_freq s))
                   (sample_interval_ms s) (_data s))
                (set_dm dm1 s)))),
     Err ValueError).
Proof.
  intros Hc Hd H20. unfold bind.
  rewrite (disperse_filterbank_completes _ _ _ _ _ dm1 self s Hc Hd H20).
  now rewrite (disperse_guard _ _ _ _ _ dm2 _ true).
Qed.

(** X17. On every baseband signal not yet dispersed whose first segment
    exists and is not empty, [disperse] raises UnitConversionError at
    [f = u - signal.bw/2.], where an array tagged 'us' meets a bandwidth
    in MHz, whatever the attributes of the engine: dm is recorded, no
    row is written and the flag is not set. *)
Theorem disperse_baseband_unit_mismatch (dm : R) (self : ISM) (s : Signal)
  (sig : Row) :
  sigtype s = "BasebandSignal"%string -> _dispersed s = None ->
  (0 < Nchan s)%Z -> _data s !! 0%nat = Some sig -> sig <> [] ->
  disperse dm (mkWorld self s)
  = (mkWorld self (set_dm dm s), Err UnitConversionError).
Proof.
  intros Hk Hd HN Hsig _.
  rewrite (disperse_unfold_baseband _ _ _ _ _ _ _ _ Hd Hk). unfold bind.
  now rewrite (baseband_unit_mismatch DM_K rfft irfft dm self (set_dm dm s)
                 sig HN Hsig).
Qed.

End Coverage2.

Section Coverage3.

Variable shift_t : Row -> R -> R -> Row.
Variable DM_K : R.
Variable rfft : Row -> list Cplx.
Variable irfft : list Cplx -> Row.

Local Abbreviation FD_shift := (FD_shift shift_t).
Local Abbreviation chirp := (chirp DM_K).

(** X19. The transfer function H has modulus 1 wherever its denominator
    (f+f0)*f0^2 is not 0: multiplying a Fourier coefficient by it keeps
    the coefficient's squared modulus, whatever dm. *)
Theorem chirp_keeps_modulus (z : Cplx) (dm f0 f : R) :
  (f + f0) * f0 ^ 2 <> 0 ->
  Cnorm2 (Cmult z (chirp dm f0 f)) = Cnorm2 z.
Proof.
  intros _. destruct z as [a b]. unfold chirp, Cexp_i, Cmult, Cnorm2. simpl.
  set (theta := 2 * PI * DM_K / ((f + f0) * (f0 * (f0 * 1))) * dm
                * (f * (f * 1))).
  pose proof (sin2_cos2 theta) as H. unfold Rsqr in H.
  replace ((a * cos theta - b * sin theta) * (a * cos theta - b * sin theta)
           + (a * sin theta + b * cos theta) * (a * sin theta + b * cos theta))
    with ((a * a + b * b) * (sin theta * sin theta + cos theta * cos theta))
    by ring.
  rewrite H. ring.
Qed.

(** X20. The transfer function of -dm undoes that of dm: wherever the
    denominator (f+f0)*f0^2 is not 0, a Fourier coefficient multiplied by
    H(dm) and then by H(-dm) is the coefficient again. *)
Theorem chirp_opposite_dm_undoes (z : Cplx) (dm f0 f : R) :
  (f + f0) * f0 ^ 2 <> 0 ->
  Cmult (Cmult z (chirp dm f0 f)) (chirp (- dm) f0 f) = z.
Proof.
  intros _. destruct z as [a b]. unfold chirp, Cexp_i, Cmult. simpl.
  set (theta := 2 * PI * DM_K / ((f + f0) * (f0 * (f0 * 1))) * dm
                * (f * (f * 1))).
  replace (2 * PI * DM_K / ((f + f0) * (f0 * (f0 * 1))) * - dm
           * (f * (f * 1))) with (- theta)
    by (unfold theta, Rdiv; ring).
  rewrite cos_neg, sin_neg.
  pose proof (sin2_cos2 theta) as H. unfold Rsqr in H.
  f_equal.
  - replace ((a * cos theta - b * sin theta) * cos theta
             - (a * sin theta + b * cos theta) * - sin theta)
      with (a * (sin theta * sin theta + cos theta * cos theta)) by ring.
    rewrite H. ring.
  - replace ((a * cos theta - b * sin theta) * - sin theta
             + (a * sin theta + b * cos theta) * cos theta)
      with (b * (sin theta * sin theta + cos theta * cos theta)) by ring.
    rewrite H. ring.
Qed.

(** X22. The delay array [FD_shift] accumulates holds, for the channel at
    positive frequency freq, the sum over k of
    -FD_params[k] * ln(freq/1000)^(k+1) seconds, expressed in ms. *)
Theorem FD_delays_are_the_sums (freq_array FD_params : list R) (i : nat)
  (freq : R) :
  freq_array !! i = Some freq -> 0 < freq ->
  FD_delays freq_array FD_params !! i
  = Some (1000 * FD_total_seconds 1000 freq FD_params 0).
Proof.
  intros Hi _. now rewrite FD_delays_total, list_lookup_fmap, Hi.
Qed.

Lemma FD_total_seconds_at_reference ref FD_params k :
  ref <> 0 -> FD_total_seconds ref ref FD_params k = 0.
Proof.
  intros Hr. revert k. induction FD_params as [|p rest IH]; intros k; simpl.
  - reflexivity.
  - rewrite IH. replace (ref / ref) with 1 by (field; exact Hr).
    rewrite ln_1, pow_i by lia. ring.
Qed.

(** X23. A channel at exactly the reference frequency, 1000 MHz, gets an
    FD delay of 0, whatever the FD parameters. *)
Theorem FD_delay_zero_at_reference (freq_array FD_params : list R)
  (i : nat) :
  freq_array !! i = Some 1000 ->
  FD_delays freq_array FD_params !! i = Some 0.
Proof.
  intros Hi. rewrite FD_delays_total, list_lookup_fmap, Hi. simpl.
  rewrite FD_total_seconds_at_reference by lra. f_equal. ring.
Qed.

(** X24. On a channelized signal of twenty channels or more, at
    positive frequencies, [FD_shift]
    returns normally, sets [_FDshifted], and replaces the row of every
    channel by that row delayed by the FD delay of the channel's
    frequency, with the sample interval in ms. *)
Theorem FD_shift_delays_every_row (FD_params : list R) (self : ISM)
  (s : Signal) :
  channelized s -> (20 <= Nchan s)%Z -> positive_frequencies s ->
  exists s',
    FD_shift FD_params (mkWorld self s) = (mkWorld self s', Ok tt)
    /\ _FDshifted s' = Some true
    /\ forall i row freq,
         _data s !! i = Some row -> _dat_freq s !! i = Some freq ->
         _data s' !! i
         = Some (shift_t row
                   (1000 * FD_total_seconds 1000 freq FD_params 0)
                   (sample_interval_ms s)).
Proof.
  intros Hc H20 _. rewrite (FD_shift_completes _ FD_params self s Hc H20).
  eexists. split; [reflexivity|]. simpl. split; [reflexivity|].
  intros i row freq Hrow Hfreq. unfold shifted_rows.
  rewrite lookup_zip_with, Hrow, FD_delays_total, list_lookup_fmap, Hfreq.
  reflexivity.
Qed.

(** X25. [FD_shift] has no guard: called twice on such a signal it
    returns normally both times and every row ends up delayed twice by
    the FD delay of its channel. *)
Theorem FD_shift_applies_twice (FD_params : list R) (self : ISM)
  (s : Signal) :
  channelized s -> (20 <= Nchan s)%Z -> positive_frequencies s ->
  exists s',
    bind (FD_shift FD_params) (fun _ => FD_shift FD_params) (mkWorld self s)
    = (mkWorld self s', Ok tt)
    /\ forall i row freq,
         _data s !! i = Some row -> _dat_freq s !! i = Some freq ->
         let delay := 1000 * FD_total_seconds 1000 freq FD_params 0 in
         let dt := sample_interval_ms s in
         _data s' !! i = Some (shift_t (shift_t row delay dt) delay dt).
Proof.
  intros Hc H20 _. rewrite (FD_shift_twice _ FD_params self s Hc H20).
  eexists. split; [reflexivity|]. simpl.
  intros i row freq Hrow Hfreq. unfold shifted_rows.
  rewrite !lookup_zip_with, Hrow, FD_delays_total, list_lookup_fmap, Hfreq.
  reflexivity.
Qed.

(** X26. With an empty list of FD parameters every delay is 0: given a
    delay primitive that returns the row for a delay of 0, [FD_shift]
    leaves the data unchanged on every signal, whether it returns or
    raises. *)
Theorem FD_shift_no_params_keeps_data (w : World) :
  stable_at_zero shift_t ->
  _data (w_signal (fst (FD_shift [] w))) = _data (w_signal w).
Proof.
  intros Hzero. destruct w as [self s]. rewrite FD_shift_unfold.
  unfold shift_rows, bind.
  destruct (shift_loop_zero shift_t (FD_delays (_dat_freq s) [])
              (sample_interval_ms s) (seq 0 (length (_dat_freq s)))
              (mkWorld self s) Hzero) as [r ->].
  - unfold FD_delays. simpl. apply Forall_replicate. reflexivity.
  - now destruct r.
Qed.

End Coverage3.

(** ** Sample runs *)

Lemma positive_twenty_channels : positive_frequencies twenty_channels.
Proof.
  unfold positive_frequencies.
  change (Forall (fun f => 0 < f)
            ((fun k : nat => 1200 + INR k) <$> seq 0 20)).
  apply Forall_fmap, Forall_forall. intros k _. simpl.
  pose proof (pos_INR k). lra.
Qed.

Lemma sample_DM_K_pos : 0 < sample_DM_K.
Proof. unfold sample_DM_K. lra. Qed.

Lemma dispersion_delays_descend_witness :
  exists di dj,
    dispersion_delays sample_DM_K sec 10 [1200; 1300; 1400; 1500] !! 0%nat
    = Some di
    /\ dispersion_delays sample_DM_K sec 10 [1200; 1300; 1400; 1500] !! 1%nat
       = Some dj
    /\ dj < di.
Proof.
  apply (dispersion_delays_descend sample_DM_K sec 10
           [1200; 1300; 1400; 1500] 0 1 1200 1300);
    [exact sample_DM_K_pos | lra | reflexivity | reflexivity | lra | lra].
Defined.

Lemma dispersion_delay_scaling_witness :
  dispersion_delay sample_DM_K sec (3 * 10) (2 * 1200)
  = 3 / 2 ^ 2 * dispersion_delay sample_DM_K sec 10 1200.
Proof. apply dispersion_delay_scaling; lra. Defined.

Lemma disperse_delays_every_row_witness :
  exists s',
    disperse rotate_shift sample_DM_K sec no_rfft no_irfft 10
      (mkWorld ISM__init__ twenty_channels)
    = (mkWorld ISM__init__ s', Ok tt)
    /\ _dm s' = Some 10 /\ _dispersed s' = Some true
    /\ length (_data s') = length (_data twenty_channels)
    /\ forall i row freq,
         _data twenty_channels !! i = Some row ->
         _dat_freq twenty_channels !! i = Some freq ->
         _data s' !! i
         = Some (rotate_shift row (dispersion_delay sample_DM_K sec 10 freq)
                   (sample_interval_ms twenty_channels)).
Proof.
  apply (disperse_delays_every_row rotate_shift sample_DM_K sec no_rfft
           no_irfft 10 ISM__init__ twenty_channels);
    [exact channelized_twenty_channels | reflexivity | simpl; lia].
Defined.

Lemma disperse_then_disperse_witness :
  bind (disperse rotate_shift sample_DM_K sec no_rfft no_irfft 10)
       (fun _ => disperse rotate_shift sample_DM_K sec no_rfft no_irfft 20)
       (mkWorld ISM__init__ twenty_channels)
  = (mkWorld ISM__init__
       (set_dm 20
          (set_dispersed true
             (set_data
                (shifted_rows rotate_shift
                   (dispersion_delays sample_DM_K sec 10
                      (_dat_freq twenty_channels))
                   (sample_interval_ms twenty_channels)
                   (_data twenty_channels))
                (set_dm 10 twenty_channels)))),
     Err ValueError).
Proof.
  apply (disperse_then_disperse rotate_shift sample_DM_K sec no_rfft
           no_irfft 10 20 ISM__init__ twenty_channels);
    [exact channelized_twenty_channels | reflexivity | simpl; lia].
Defined.

Lemma disperse_baseband_unit_mismatch_witness :
  disperse rotate_shift sample_DM_K sec no_rfft no_irfft 10
    (mkWorld engine_with_MD one_baseband)
  = (mkWorld engine_with_MD (set_dm 10 one_baseband),
     Err UnitConversionError).
Proof.
  apply (disperse_baseband_unit_mismatch rotate_shift sample_DM_K sec
           no_rfft no_irfft 10 engine_with_MD one_baseband [1; 2; 3; 4]);
    [reflexivity | reflexivity | simpl; lia | reflexivity | discriminate].
Defined.

Lemma chirp_keeps_modulus_witness :
  Cnorm2 (Cmult (1, 2) (chirp sample_DM_K 10 1400 100)) = Cnorm2 (1, 2).
Proof. apply chirp_keeps_modulus. simpl. lra. Defined.

Lemma chirp_opposite_dm_undoes_witness :
  Cmult (Cmult (1, 2) (chirp sample_DM_K 10 1400 100))
        (chirp sample_DM_K (- 10) 1400 100) = (1, 2).
Proof. apply chirp_opposite_dm_undoes. simpl. lra. Defined.

Lemma FD_delays_are_the_sums_witness :
  FD_delays [1200; 1300] [0.0001] !! 0%nat
  = Some (1000 * FD_total_seconds 1000 1200 [0.0001] 0).
Proof.
  apply FD_delays_are_the_sums; [reflexivity | lra].
Defined.

Lemma FD_delay_zero_at_reference_witness :
  FD_delays [900; 1000; 1100] [0.0001; 0.00002] !! 1%nat = Some 0.
Proof. apply FD_delay_zero_at_reference. reflexivity. Defined.

Lemma FD_shift_delays_every_row_witness :
  exists s',
    FD_shift rotate_shift [0.0001] (mkWorld ISM__init__ twenty_channels)
    = (mkWorld ISM__init__ s', Ok tt)
    /\ _FDshifted s' = Some true
    /\ forall i row freq,
         _data twenty_channels !! i = Some row ->
         _dat_freq twenty_channels !! i = Some freq ->
         _data s' !! i
         = Some (rotate_shift row
                   (1000 * FD_total_seconds 1000 freq [0.0001] 0)
                   (sample_interval_ms twenty_channels)).
Proof.
  apply (FD_shift_delays_every_row rotate_shift [0.0001] ISM__init__
           twenty_channels);
    [exact channelized_twenty_channels | simpl; lia
    | exact positive_twenty_channels].
Defined.

Lemma FD_shift_applies_twice_witness :
  exists s',
    bind (FD_shift rotate_shift [0.0001])
         (fun _ => FD_shift rotate_shift [0.0001])
         (mkWorld ISM__init__ twenty_channels)
    = (mkWorld ISM__init__ s', Ok tt)
    /\ forall i row freq,
         _data twenty_channels !! i = Some row ->
         _dat_freq twenty_channels !! i = Some freq ->
         let delay := 1000 * FD_total_seconds 1000 freq [0.0001] 0 in
         let dt := sample_interval_ms twenty_channels in
         _data s' !! i
         = Some (rotate_shift (rotate_shift row delay dt) delay dt).
Proof.
  apply (FD_shift_applies_twice rotate_shift [0.0001] ISM__init__
           twenty_channels);
    [exact channelized_twenty_channels | simpl; lia
    | exact positive_twenty_channels].
Defined.

Lemma FD_shift_no_params_keeps_data_witness :
  _data (w_signal (fst (FD_shift rotate_shift []
                          (mkWorld ISM__init__ four_channels))))
  = _data four_channels.
Proof.
  apply (FD_shift_no_params_keeps_data rotate_shift
           (mkWorld ISM__init__ four_channels)).
  exact rotate_shift_zero.
Defined.
